(** * PhiFlow: point clouds, grid scatter, particle seeding and the console

    A shallow embedding of [phi/field/_point_cloud.py] and
    [phi/app/_console/_console_gui.py].

    Conventions of the embedding:
    - Python exceptions are values of [Py.exn]; a call that may raise
      returns [Py.result A];
    - the floating point numbers of the array backend are modelled by
      the rationals ([Q]) they stand for; every arithmetic result is
      rounded to the backend's default format, float32, by [Math.fl]
      (infinities and NaN are not modelled);
    - a tensor of points, of shape (point_count, rank), is a list of
      rows; an array with [rank] axes is a list nested [rank] times,
      [Math.nd]. *)

From Stdlib Require Import ZArith QArith Qround Qabs Qpower Lia Lqa String Ascii.
From stdpp Require Import base option list strings gmap.

#[local] Open Scope string_scope.
#[local] Open Scope list_scope.

(* ===================================================================== *)
(** ** Python results and exceptions                                      *)
(* ===================================================================== *)

Module Py.

(** The exceptions the two source files can meet. *)
Inductive exn : Type :=
| NameError (name : string)
| AttributeError (attr : string)
| NotImplementedError
| AssertionError
| ValueError (msg : string)
| IndexError
| KeyError (key : string)
| ZeroDivisionError
| EOFError.

Definition result (A : Type) : Type := exn + A.

Definition ret {A} (a : A) : result A := inr a.
Definition raise {A} (e : exn) : result A := inl e.

Definition bind {A B} (c : result A) (k : A -> result B) : result B :=
  match c with
  | inl e => inl e
  | inr a => k a
  end.

(** [try: c except ValueError: raise ValueError(msg)] *)
Definition reraise_ValueError {A} (c : result A) (msg : string) : result A :=
  match c with
  | inl (ValueError _) => inl (ValueError msg)
  | other => other
  end.

Definition succeeds {A} (c : result A) : Prop := exists a, c = inr a.
Definition fails {A} (c : result A) : Prop := exists e, c = inl e.

(** Code that also reads and writes a state [S] (the random source, the
    terminal): it returns or raises, and leaves a new state either way. *)
Definition io (S A : Type) : Type := S -> result A * S.

Definition io_ret {S A} (a : A) : io S A := fun s => (inr a, s).
Definition io_raise {S A} (e : exn) : io S A := fun s => (inl e, s).
Definition io_bind {S A B} (c : io S A) (k : A -> io S B) : io S B :=
  fun s => match c s with
           | (inl e, s') => (inl e, s')
           | (inr a, s') => k a s'
           end.
Definition lift {S A} (c : result A) : io S A := fun s => (c, s).

(** [assert cond] *)
Definition assert_ {S} (cond : bool) : io S unit :=
  if cond then io_ret tt else io_raise AssertionError.

(** [for x in xs: acc = body(acc, x)] *)
Fixpoint for_in {S A Acc} (xs : list A) (body : Acc -> A -> io S Acc) (acc : Acc)
  : io S Acc :=
  match xs with
  | [] => io_ret acc
  | x :: rest => io_bind (body acc x) (for_in rest body)
  end.

End Py.

Declare Scope py_scope.
Delimit Scope py_scope with py.
Notation "'do' x <- c ; k" := (Py.bind c (fun x => k))
  (at level 10, x name, c at level 100, k at level 200) : py_scope.
Notation "'run' x <- c ; k" := (Py.io_bind c (fun x => k))
  (at level 10, x name, c at level 100, k at level 200) : py_scope.
#[local] Open Scope py_scope.

(* ===================================================================== *)
(** ** The array backend ([phi.math]) as far as the sources use it        *)
(* ===================================================================== *)

Module Math.

(** An array with [rank] axes: a cell, or the list of its sub-arrays along
    the leading axis. *)
Fixpoint nd (A : Type) (rank : nat) : Type :=
  match rank with
  | O => A
  | S rank' => list (nd A rank')
  end.

Fixpoint nd_map {A B} (f : A -> B) (rank : nat) : nd A rank -> nd B rank :=
  match rank with
  | O => f
  | S rank' => List.map (nd_map f rank')
  end.

(** An array together with its rank. *)
Record ndarray (A : Type) : Type := {
  nd_rank : nat;
  nd_data : nd A nd_rank
}.
Arguments nd_rank {A} _.
Arguments nd_data {A} _.

(** A tensor of shape (point_count, rank). *)
Abbreviation points_t := (list (list Q)).
(** An integer tensor of shape (point_count, rank). *)
Abbreviation indices_t := (list (list Z)).

(** Rows of the sub-arrays, each prefixed with its position [i], [i+1],
    ... on the current axis. *)
Fixpoint number_rows (i : Z) (rows : list indices_t) : indices_t :=
  match rows with
  | [] => []
  | r :: rest => List.map (cons i) r ++ number_rows (i + 1) rest
  end.

(** Modelled from the spec: [math.where(condition)] with one argument
    finds the indices of the cells that hold: their index vectors, in
    row-major order. *)
Fixpoint where_ (rank : nat) : nd bool rank -> indices_t :=
  match rank with
  | O => fun b : bool => if b then [[]] else []
  | S rank' => fun sub => number_rows 0 (List.map (where_ rank') sub)
  end.

(** Modelled from the spec: [tensor > 0] is the elementwise comparison
    behind "where value > 0". *)
Definition gt0 (x : Q) : bool :=
  match (0 ?= x)%Q with Lt => true | _ => false end.
Definition greater_than_zero {rank} (t : nd Q rank) : nd bool rank :=
  nd_map gt0 rank t.

(** Modelled from the spec: rounding to the nearest integer; a tie goes
    to the even neighbour, as in NumPy's and TensorFlow's [round]. *)
Definition round_half_even (x : Q) : Z :=
  let f := Qfloor x in
  match (x - inject_Z f ?= 1 # 2)%Q with
  | Lt => f
  | Gt => (f + 1)%Z
  | Eq => if Z.even f then f else (f + 1)%Z
  end.

(** [2^q], for any integer [q]. *)
Definition two_to (q : Z) : Q := Qpower 2 q.

(** The binary exponent of a number other than zero: the [e] with
    [2^e <= |x| < 2^(e+1)]. *)
Definition exponent (x : Q) : Z :=
  let e0 := (Z.log2 (Z.abs (Qnum x)) - Z.log2 (Zpos (Qden x)))%Z in
  if Qle_bool (two_to e0) (Qabs x) then e0 else (e0 - 1)%Z.

(** Modelled from the spec: the backend computes in floating point, in
    its default precision, float32.  [fl x] is the float32 nearest to [x]:
    24 significant bits, a tie to the even neighbour, steps of [2^-149]
    near zero.  Results beyond the largest float32 are infinite in the
    backend and are not modelled. *)
Definition fl (x : Q) : Q :=
  if (Qnum x =? 0)%Z then 0
  else let q := Z.max (exponent x - 23) (-149) in
       Qred (inject_Z (round_half_even (x * two_to (- q))) * two_to q).

(** Modelled from the spec: [math.to_float] converts the integer indices
    to floats, elementwise; an index of more than 24 bits is rounded. *)
Definition to_float (idx : indices_t) : points_t :=
  List.map (List.map (fun i => fl (inject_Z i))) idx.

(** Modelled from the spec: [tensor + scalar] is an elementwise
    operation of the backend; every sum is rounded to a float. *)
Definition add_scalar (t : points_t) (c : Q) : points_t :=
  List.map (List.map (fun x => fl (x + c))) t.

(** Modelled from the spec: [a + b] on two tensors of one shape is
    elementwise; every sum is rounded to a float. *)
Fixpoint zip_with {A B C} (f : A -> B -> C) (a : list A) (b : list B) : list C :=
  match a, b with
  | x :: a', y :: b' => f x y :: zip_with f a' b'
  | _, _ => []
  end.
Definition add_tensor (a b : points_t) : points_t :=
  zip_with (zip_with (fun x y => fl (x + y))) a b.

(** Modelled from the spec: [math.shape] is the shape introspection of
    the backend, here of a (point_count, rank) tensor.  The rank of a
    tensor without rows is not recorded by the list model and reads 0 (no
    number is then drawn, whatever the rank). *)
Definition shape (t : points_t) : nat * nat :=
  (length t, match t with r :: _ => length r | [] => 0%nat end).

(** The random source of the backend: the [n]-th number it hands out. *)
Definition rng : Type := nat -> Q.

Definition tabulate {A} (n : nat) (f : nat -> A) : list A :=
  List.map f (seq 0 n).

(** Modelled from the spec: [math.random_uniform(shape)] samples
    uniformly into the given shape.  It draws rows*cols numbers in
    row-major order, starting at draw number [s], and leaves the next draw
    number. *)
Definition random_uniform (rand : rng) (sh : nat * nat) : Py.io nat points_t :=
  fun s =>
    let '(rows, cols) := sh in
    (inr (tabulate rows (fun i => tabulate cols (fun j => rand (s + i * cols + j)%nat))),
     (s + rows * cols)%nat).

(** Modelled from the spec: [math.concat(tensors, axis=0)] concatenates
    along the first axis; as in NumPy, an empty list is refused with
    [ValueError]. *)
Definition concat (ts : list points_t) : Py.result points_t :=
  match ts with
  | [] => Py.raise (Py.ValueError "need at least one array to concatenate")
  | _ => Py.ret (List.concat ts)
  end.

(** The shape of a tensor of rows, as far as the list model sees it. *)
Definition row_shape (t : points_t) : list nat := List.map (@length Q) t.

Definition same_shape (a b : points_t) : bool :=
  bool_decide (row_shape a = row_shape b).

(** Modelled from the spec: [math.stack(tensors)] stacks along a new
    leading axis, into one rectangular structure; as in NumPy, tensors of
    different shapes, and an empty list, are refused with [ValueError]. *)
Definition stack (ts : list points_t) : Py.result (list points_t) :=
  match ts with
  | [] => Py.raise (Py.ValueError "need at least one array to stack")
  | t :: rest =>
      if forallb (same_shape t) rest then Py.ret ts
      else Py.raise (Py.ValueError "all input arrays must have the same shape")
  end.

(** Modelled from the spec: [math.round], elementwise rounding; the
    result is still a float. *)
Definition round (x : Q) : Q := inject_Z (round_half_even x).

(** Modelled from the spec: [math.to_int] converts to the backend's
    default integers, int32, by truncation towards zero; a number outside
    the int32 range gives the smallest int32, as NumPy and TensorFlow do
    on the usual hardware. *)
Definition to_int (x : Q) : Z :=
  let z := Z.quot (Qnum x) (Zpos (Qden x)) in
  if ((- 2 ^ 31 <=? z) && (z <? 2 ^ 31))%Z then z else (- 2 ^ 31)%Z.

End Math.

(* ===================================================================== *)
(** ** Particle seeding: [_distribute_points]                             *)
(* ===================================================================== *)

Module Seeding.
Import Math.

(** The [density] argument: a tensor of shape (batch, spatial..., channels)
    with at least one channel.  Each batch entry is the spatial array of
    its cells; a cell holds channel 0 and the other channels.  The static
    shape may or may not know the size of the leading dimension. *)
Record Density : Type := {
  static_batch_known : bool;
  spatial_rank : nat;
  batches : list (nd (Q * list Q) spatial_rank)
}.

(** Modelled from the spec: [math.staticshape(density)[0]] is the static
    size of the leading dimension, or the marker for an unknown one. *)
Definition staticshape0 (density : Density) : option nat :=
  if static_batch_known density then Some (length (batches density)) else None.

(** [density[batch, ..., 0]] *)
Definition getitem (density : Density) (batch : nat)
  : Py.result (nd Q (spatial_rank density)) :=
  match batches density !! batch with
  | Some t => Py.ret (nd_map fst _ t)
  | None => Py.raise Py.IndexError
  end.

(** [batch_size] of line 61. *)
Definition batch_size (density : Density) : nat :=
  match staticshape0 density with
  | Some n => n
  | None => 1%nat
  end.

(** [range(n)] for a Python integer. *)
Definition range (n : Z) : list nat := seq 0 (Z.to_nat n).

(** The active cells of one batch entry: [math.where(cell > 0)]. *)
Definition active_cells {rank} (t : nd (Q * list Q) rank) : indices_t :=
  where_ rank (greater_than_zero (nd_map fst rank t)).

(** [to_float(indices) + 0.5]: what a 'center' turn appends for the index
    tensor [cells]. *)
Definition cell_centers (cells : indices_t) : points_t :=
  add_scalar (to_float cells) (1 # 2).

(** The message of line 78. *)
Definition same_count_message : string :=
  "all arrays in the batch must have the same number of active cells.".

(** Lines 64-73: the tensor appended to [index_array] for [batch]. *)
Definition batch_points (rand : rng) (density : Density) (particles_per_cell : Z)
    (distribution : string) (batch : nat) : Py.io nat points_t :=
  run cell <- Py.lift (getitem density batch);
  let indices := where_ _ (greater_than_zero cell) in
  let indices := to_float indices in
  let temp : list points_t := [] in
  run temp <- Py.for_in (range particles_per_cell) (fun temp _ =>
      if String.eqb distribution "center" then
        Py.io_ret (temp ++ [add_scalar indices (1 # 2)])
      else if String.eqb distribution "uniform" then
        run offsets <- random_uniform rand (shape indices);
        Py.io_ret (temp ++ [add_tensor indices offsets])
      else Py.io_ret temp) temp;
  Py.lift (concat temp).

Definition _distribute_points (rand : rng) (density : Density)
    (particles_per_cell : Z) (distribution : string) : Py.io nat (list points_t) :=
  run _ <- Py.assert_ (bool_decide (distribution ∈ ["center"; "uniform"]));
  let index_array : list points_t := [] in
  let batch_size := batch_size density in
  run index_array <- Py.for_in (seq 0 batch_size) (fun index_array batch =>
      run entry <- batch_points rand density particles_per_cell distribution batch;
      Py.io_ret (index_array ++ [entry])) index_array;
  Py.lift (Py.reraise_ValueError (stack index_array) same_count_message).

(** The statement that, with 'center' and a positive [particles_per_cell],
    every batch entry with A active cells gets k * A points in the result,
    whatever the other batches hold. *)
Definition center_count_always_holds : Prop :=
  forall (rand : rng) (d : Density) (k : Z) (b : nat)
         (t : nd (Q * list Q) (spatial_rank d)) (s : nat),
    (0 < k)%Z -> batches d !! b = Some t ->
    exists r s' pts,
      _distribute_points rand d k "center" s = (inr r, s')
      /\ r !! b = Some pts
      /\ Z.of_nat (length pts) = (k * Z.of_nat (length (active_cells t)))%Z.

(** The statement that two batch entries with different numbers of active
    cells always make the call fail, whatever the static shape says. *)
Definition mismatch_always_fails : Prop :=
  forall (rand : rng) (d : Density) (k : Z) (distribution : string) (s : nat)
         (i j : nat) (ti tj : nd (Q * list Q) (spatial_rank d)),
    (0 < k)%Z -> distribution = "center" \/ distribution = "uniform" ->
    batches d !! i = Some ti -> batches d !! j = Some tj ->
    length (active_cells ti) <> length (active_cells tj) ->
    Py.fails (fst (_distribute_points rand d k distribution s)).

End Seeding.

(* ===================================================================== *)
(** ** Geometry, fields and the point cloud                               *)
(* ===================================================================== *)

Module Field.
Import Math.

(** Modelled from the spec: [phi.geom.Geometry] is a set of elements, each
    with a position and an optional extent. *)
Record Element : Type := {
  position : list Q;
  extent : option (list Q)
}.
Abbreviation Geometry := (list Element).

(** Modelled from the spec: [phi.geom.Box], the physical bounds of a grid. *)
Record Box : Type := {
  lower : list Q;
  upper : list Q
}.

(** [math.Shape]: the sizes along the spatial axes. *)
Abbreviation Shape := (list Z).

(** Modelled from the spec: [phi.geom.GridCell] reports bounds and
    resolution. *)
Record GridCell : Type := {
  bounds : Box;
  resolution : Shape
}.

(** Modelled from the spec: the extrapolation policies. *)
Inductive Extrapolation : Type :=
| ZERO
| PERIODIC
| BOUNDARY
| SYMMETRIC.

(** The [values] of a sampled field: one scalar broadcast to all elements
    ([values=1]) or one value per element. *)
Inductive Values : Type :=
| Scalar (v : Q)
| PerElement (vs : list Q).

(** [PointCloud.__init__]: the three attributes [SampledField.__init__]
    stores and [_add_overlapping]. *)
Record PointCloud : Type := {
  _elements : Geometry;
  _values : Values;
  _extrapolation : Extrapolation;
  _add_overlapping : bool
}.

(** Modelled from the spec: [CenteredGrid], a dense array with one value
    per cell, over a box, with an extrapolation. *)
Record CenteredGrid : Type := {
  grid_values : ndarray Q;
  grid_box : Box;
  grid_extrapolation : Extrapolation
}.

(** Modelled from the spec: the properties of [SampledField] the spec
    describes (its geometry's positions, its values, its extrapolation). *)
Definition elements (self : PointCloud) : Geometry := _elements self.
Definition points (self : PointCloud) : points_t := List.map position (_elements self).
Definition values (self : PointCloud) : Values := _values self.
Definition extrapolation (self : PointCloud) : Extrapolation := _extrapolation self.

(** A Python object as a name or attribute lookup returns it. *)
Inductive pyobj : Type :=
| PyNone
| PyStr (s : string)
| PyInt (z : Z)
| PyShape (sizes : Shape)
| PyIndices (idx : indices_t)
| PyTensor (t : points_t)
| PyGlobal (name : string).

(** The names bound at the top level of [_point_cloud.py] once the module
    is loaded: its imports, its class and its function, and the names every
    module has. *)
Definition module_globals : list string :=
  ["Any"; "math"; "Geometry"; "GridCell"; "Box"; "SampledField";
   "CenteredGrid"; "PointCloud"; "_distribute_points";
   "__name__"; "__doc__"; "__package__"; "__loader__"; "__spec__";
   "__file__"; "__cached__"; "__builtins__"].

(** The functions, types and constants of Python's [builtins] module. *)
Definition builtins : list string :=
  ["abs"; "aiter"; "all"; "anext"; "any"; "ascii"; "bin"; "bool";
   "breakpoint"; "bytearray"; "bytes"; "callable"; "chr"; "classmethod";
   "compile"; "complex"; "copyright"; "credits"; "delattr"; "dict"; "dir";
   "divmod"; "enumerate"; "eval"; "exec"; "exit"; "filter"; "float";
   "format"; "frozenset"; "getattr"; "globals"; "hasattr"; "hash"; "help";
   "hex"; "id"; "input"; "int"; "isinstance"; "issubclass"; "iter"; "len";
   "license"; "list"; "locals"; "map"; "max"; "memoryview"; "min"; "next";
   "object"; "oct"; "open"; "ord"; "pow"; "print"; "property"; "quit";
   "range"; "repr"; "reversed"; "round"; "set"; "setattr"; "slice";
   "sorted"; "staticmethod"; "str"; "sum"; "super"; "tuple"; "type";
   "vars"; "zip"; "__import__"; "__build_class__"; "__debug__";
   "None"; "True"; "False"; "Ellipsis"; "NotImplemented";
   "BaseException"; "Exception"; "ArithmeticError"; "AssertionError";
   "AttributeError"; "BlockingIOError"; "BrokenPipeError"; "BufferError";
   "BytesWarning"; "ChildProcessError"; "ConnectionAbortedError";
   "ConnectionError"; "ConnectionRefusedError"; "ConnectionResetError";
   "DeprecationWarning"; "EOFError"; "EnvironmentError";
   "FileExistsError"; "FileNotFoundError"; "FloatingPointError";
   "FutureWarning"; "GeneratorExit"; "IOError"; "ImportError";
   "ImportWarning"; "IndentationError"; "IndexError"; "InterruptedError";
   "IsADirectoryError"; "KeyError"; "KeyboardInterrupt"; "LookupError";
   "MemoryError"; "ModuleNotFoundError"; "NameError";
   "NotADirectoryError"; "NotImplementedError"; "OSError";
   "OverflowError"; "PendingDeprecationWarning"; "PermissionError";
   "ProcessLookupError"; "RecursionError"; "ReferenceError";
   "ResourceWarning"; "RuntimeError"; "RuntimeWarning";
   "StopAsyncIteration"; "StopIteration"; "SyntaxError"; "SyntaxWarning";
   "SystemError"; "SystemExit"; "TabError"; "TimeoutError"; "TypeError";
   "UnboundLocalError"; "UnicodeDecodeError"; "UnicodeEncodeError";
   "UnicodeError"; "UnicodeTranslateError"; "UnicodeWarning";
   "UserWarning"; "ValueError"; "Warning"; "ZeroDivisionError"].

(** Reading a name that the function does not assign: the module's
    globals, then the builtins, else [NameError]. *)
Definition load_global (name : string) : Py.result pyobj :=
  if bool_decide (name ∈ module_globals) then Py.ret (PyGlobal name)
  else if bool_decide (name ∈ builtins) then Py.ret (PyGlobal name)
  else Py.raise (Py.NameError name).

Section PointCloud.

(** [Box.global_to_local], for one point: the geometry's map from a
    global position to the box-local coordinate. *)
Variable global_to_local : Box -> list Q -> list Q.

(** What [SampledField] defines besides the properties above is not
    given: [other_attr self name] is the value of such an attribute, if the
    class has it. *)
Variable other_attr : PointCloud -> string -> option pyobj.

(** [math.scatter(points, indices, values, shape, duplicates_handling)],
    the grouped reduction of the backend. *)
Variable scatter : pyobj -> pyobj -> Values -> pyobj -> pyobj -> Py.result (ndarray Q).

(** [self.name] for a name that is neither set in [__init__] nor one of
    the properties above. *)
Definition getattr (self : PointCloud) (name : string) : Py.result pyobj :=
  match other_attr self name with
  | Some v => Py.ret v
  | None => Py.raise (Py.AttributeError name)
  end.

(** [tensor * resolution]: every point times the resolution, axis by axis,
    in floating point. *)
Definition mul_shape (t : points_t) (resolution : Shape) : points_t :=
  List.map (fun p => zip_with (fun x r => fl (x * r)) p
                       (List.map (fun r => fl (inject_Z r)) resolution)) t.

(** Line 40: [math.to_int(math.round(box.global_to_local(self.points) * resolution))]. *)
Definition closest_index (self : PointCloud) (box : Box) (resolution : Shape)
  : indices_t :=
  List.map (List.map to_int)
    (List.map (List.map round)
       (mul_shape (List.map (global_to_local box) (points self)) resolution)).

Definition _grid_scatter (self : PointCloud) (box : Box) (resolution : Shape)
  : Py.result CenteredGrid :=
  let closest_index := closest_index self box resolution in
  do sample_points <- getattr self "sample_points";
  do valid_indices <- load_global "valid_indices";
  let values := values self in
  do shape <- load_global "shape";
  do mode <- getattr self "mode";
  do scattered <- scatter sample_points valid_indices values shape mode;
  Py.ret {| grid_values := scattered; grid_box := box;
            grid_extrapolation := extrapolation self |}.

(** What [sample_at] can be asked to sample at. *)
Inductive Support : Type :=
| AtGridCell (cells : GridCell)
| AtBox (b : Box)
| AtGeometry (g : Geometry)
| AtTensor (t : points_t).

(** [isinstance(points, GridCell)] *)
Definition isinstance_GridCell (points : Support) : bool :=
  match points with
  | AtGridCell _ => true
  | _ => false
  end.

Definition sample_at (self : PointCloud) (points : Support) (reduce_channels : list string)
  : Py.result CenteredGrid :=
  match points with
  | AtGridCell cells => _grid_scatter self (bounds cells) (resolution cells)
  | _ => Py.raise Py.NotImplementedError
  end.

End PointCloud.

Definition mask (self : PointCloud) : PointCloud :=
  {| _elements := _elements self; _values := Scalar 1;
     _extrapolation := ZERO; _add_overlapping := false |}.

(** Objects live in a store; a variable holds a reference. *)
Definition ref : Type := nat.
Abbreviation store := (gmap nat PointCloud).

(** [PointCloud(...)]: a new object at an unused reference. *)
Definition new (h : store) (obj : PointCloud) : store * ref :=
  let r := fresh (dom h) in (<[r := obj]> h, r).

(** [self.mask()] on the object [self] refers to; [None] if [self] refers
    to no object. *)
Definition call_mask (h : store) (self : ref) : option (store * ref) :=
  match h !! self with
  | Some obj => Some (new h (mask obj))
  | None => None
  end.

End Field.

(* ===================================================================== *)
(** ** The console: [ConsoleGui]                                          *)
(* ===================================================================== *)

Module Console.

(** Python's [str.strip()] on the ASCII range: the characters it removes. *)
Definition is_space (c : ascii) : bool :=
  let n := nat_of_ascii c in
  ((9 <=? n) && (n <=? 13) || (28 <=? n) && (n <=? 32))%nat.

Fixpoint lstrip (s : string) : string :=
  match s with
  | String c rest => if is_space c then lstrip rest else s
  | EmptyString => EmptyString
  end.

(** Removes trailing white space: a character stays if it is no space or
    if something stays after it. *)
Fixpoint rstrip (s : string) : string :=
  match s with
  | String c rest =>
      match rstrip rest with
      | EmptyString => if is_space c then EmptyString else String c EmptyString
      | kept => String c kept
      end
  | EmptyString => EmptyString
  end.

Definition strip (s : string) : string := rstrip (lstrip s).

(** [s.split(',')]: the pieces between the commas, at least one. *)
Fixpoint split_comma (s : string) : list string :=
  match s with
  | EmptyString => [EmptyString]
  | String c rest =>
      if Ascii.eqb c "," then EmptyString :: split_comma rest
      else match split_comma rest with
           | piece :: pieces => String c piece :: pieces
           | [] => [String c EmptyString]
           end
  end.

(** [s[n:]] *)
Fixpoint drop_chars (n : nat) (s : string) : string :=
  match n, s with
  | S n', String _ rest => drop_chars n' rest
  | _, _ => s
  end.

(** ["\n".join(lines)] *)
Fixpoint join_lines (lines : list string) : string :=
  match lines with
  | [] => EmptyString
  | [l] => l
  | l :: rest => l +:+ String (ascii_of_nat 10) (join_lines rest)
  end.

Section ConsoleGui.

(** The field objects and what the console asks of them. *)
Variable FieldObj : Type.
Variable isinstance_StaggeredGrid : FieldObj -> bool.
Variable at_centers : FieldObj -> FieldObj.
Variable vec_squared : FieldObj -> FieldObj.
Variable heatmap : FieldObj -> Z -> Z -> list string.

(** The application the console drives. *)
Variable App : Type.
Variable app_step app_play app_pause : App -> App.
(** The field registry of the application, in its own order. *)
Variable registry : App -> list (string * FieldObj).
(** [str(app.fieldnames)] *)
Variable str_fieldnames : App -> string.

(** [ordered_field_names(app, config.get('display'))] *)
Variable Config : Type.
Variable ordered_field_names : App -> Config -> list string.
(** [shutil.get_terminal_size(fallback=(80, 20))] *)
Variable terminal_size : Z * Z.

(** Modelled from the spec: [app.get_field(name)] looks the name up in
    the registry and fails with [KeyError] (the spec's FieldNotFound) when
    the name does not exist. *)
Fixpoint lookup_field (fields : list (string * FieldObj)) (name : string)
  : Py.result FieldObj :=
  match fields with
  | [] => Py.raise (Py.KeyError name)
  | (n, f) :: rest => if String.eqb n name then Py.ret f else lookup_field rest name
  end.
Definition get_field (app : App) (name : string) : Py.result FieldObj :=
  lookup_field (registry app) name.
Definition fieldnames (app : App) : list string := List.map fst (registry app).

(** The console object and the terminal it writes to. *)
Record World : Type := {
  app : App;
  config : Config;
  stdout : list string
}.

(** [print(text, end=e)]: one write of [text ++ e]. *)
Definition print_end (text e : string) : Py.io World unit :=
  fun w => (inr tt, {| app := app w; config := config w;
                       stdout := stdout w ++ [text +:+ e] |}).
Definition newline : string := String (ascii_of_nat 10) EmptyString.
Definition print (text : string) : Py.io World unit := print_end text newline.

(** The terminal after some more writes. *)
Definition written (w : World) (texts : list string) : World :=
  {| app := app w; config := config w; stdout := stdout w ++ texts |}.

(** What the handler of line 66 writes for the name [n]. *)
Definition missing_field_message (a : App) (n : string) : string :=
  ("The field " +:+ n +:+ " does not exist. Available fields are "
   +:+ str_fieldnames a) +:+ newline.

Definition update_app (f : App -> App) : Py.io World unit :=
  fun w => (inr tt, {| app := f (app w); config := config w; stdout := stdout w |}).
Definition read_world : Py.io World World := fun w => (inr w, w).

(** Lines 62-67: the loop that looks the names up.  [None] stands for the
    [return] inside the handler, [Some values] for the end of the loop. *)
Fixpoint draw_lookup (field_names : list string) (values : list FieldObj)
  : Py.io World (option (list FieldObj)) :=
  match field_names with
  | [] => Py.io_ret (Some values)
  | n :: rest =>
      run w <- read_world;
      match get_field (app w) n with
      | inr v => draw_lookup rest (values ++ [v])
      | inl (Py.KeyError _) =>
          run _ <- print ("The field " +:+ n +:+ " does not exist. Available fields are "
                          +:+ str_fieldnames (app w));
          Py.io_ret None
      | inl e => Py.io_raise e
      end
  end.

(** Lines 68-78: the plot of the values found. *)
Definition draw_plot (values : list FieldObj) : Py.io World unit :=
  let '(cols, rows) := terminal_size in
  if Nat.eqb (length values) 0 then Py.io_raise Py.ZeroDivisionError else
  let plt_width := (cols / Z.of_nat (length values))%Z in
  let plt_height := (rows - 1)%Z in
  let lines := repeat EmptyString (Z.to_nat plt_height) in
  let lines := fold_left (fun lines v =>
      let v := if isinstance_StaggeredGrid v then at_centers v else v in
      let v := vec_squared v in
      let plt_lines := heatmap v plt_width plt_height in
      Math.zip_with String.append lines plt_lines) values lines in
  print (join_lines lines).

(** Lines 61-78: [draw] once [field_names] is a list. *)
Definition draw_fields (field_names : list string) : Py.io World unit :=
  run found <- draw_lookup field_names [];
  match found with
  | None => Py.io_ret tt
  | Some values => draw_plot values
  end.

Definition draw (field_names : option (list string)) : Py.io World unit :=
  match field_names with
  | None =>
      run w <- read_world;
      let shown_fields := ordered_field_names (app w) (config w) in
      if Nat.eqb (length shown_fields) 0 then print "Nothing to show."
      else draw_fields (if (2 <? length shown_fields)%nat then take 2 shown_fields
                        else shown_fields)
  | Some field_names => draw_fields field_names
  end.

(** One turn of the command loop, after [command = input()]. *)
Definition command_turn (command : string) : Py.io World unit :=
  if String.eqb command "step" then update_app app_step
  else if String.eqb command "play" then update_app app_play
  else if String.eqb command "pause" then update_app app_pause
  else if String.eqb command "show" then draw None
  else if String.prefix "show " command then
    let fields := split_comma (drop_chars (String.length "show ") command) in
    let fields := List.map strip fields in
    draw (Some fields)
  else if String.eqb command "help" then
    print "Commands: help, step, play, pause, show, show <comma-separated fieldnames>"
  else print ("Command " +:+ command +:+ " not recognized.").

(** The [while True] loop of [show] on the lines standard input still
    holds; [input()] raises [EOFError] when there is none left.  The loop
    has no exit of its own: it ends with an exception. *)
Fixpoint command_loop (stdin : list string) (w : World) : Py.exn * World :=
  match print_end "PhiFlow>" "" w with
  | (inl e, w) => (e, w)
  | (inr _, w) =>
      match stdin with
      | [] => (Py.EOFError, w)
      | command :: rest =>
          match command_turn command w with
          | (inl e, w) => (e, w)
          | (inr _, w) => command_loop rest w
          end
      end
  end.

Definition show (caller_is_main : bool) (stdin : list string) (w : World)
  : Py.exn * World :=
  match print "PhiFlow console interface active. Type 'help' for a list of available commands." w with
  | (inl e, w) => (e, w)
  | (inr _, w) => command_loop stdin w
  end.

(** Lines 68-77: the lines of the plot, as [draw] joins and prints them. *)
Definition plot_lines (values : list FieldObj) : list string :=
  let '(cols, rows) := terminal_size in
  let plt_width := (cols / Z.of_nat (length values))%Z in
  let plt_height := (rows - 1)%Z in
  fold_left (fun lines v =>
      let v := if isinstance_StaggeredGrid v then at_centers v else v in
      let v := vec_squared v in
      let plt_lines := heatmap v plt_width plt_height in
      Math.zip_with String.append lines plt_lines) values
    (repeat EmptyString (Z.to_nat plt_height)).

(** Lines 46-47: the field names a [show <names>] command asks for. *)
Definition show_field_names (arg : string) : list string :=
  List.map strip (split_comma arg).

(** What one command does to the application. *)
Definition apply_command (command : string) (a : App) : App :=
  if String.eqb command "step" then app_step a
  else if String.eqb command "play" then app_play a
  else if String.eqb command "pause" then app_pause a
  else a.

End ConsoleGui.

(** [c in s] *)
Fixpoint contains_char (c : ascii) (s : string) : bool :=
  match s with
  | EmptyString => false
  | String c' rest => Ascii.eqb c' c || contains_char c rest
  end.

End Console.


(* ===================================================================== *)
(** ** Example inputs                                                     *)
(* ===================================================================== *)

Module Examples.
Import Math Field Seeding.

(** A box maps itself onto the unit cube, axis by axis. *)
Definition affine_global_to_local (box : Box) (p : list Q) : list Q :=
  zip_with (fun x lu => (x - fst lu) / (snd lu - fst lu))%Q p
    (zip_with pair (lower box) (upper box)).

Definition at_position (p : list Q) : Element :=
  {| position := p; extent := None |}.

(** A cloud of unit-valued points, as scattered back after seeding. *)
Definition cloud_of (pts : points_t) (add_overlapping : bool) : PointCloud :=
  {| _elements := List.map at_position pts; _values := Scalar 1;
     _extrapolation := ZERO; _add_overlapping := add_overlapping |}.

(** Two points, with the values 1 and 2, inside the one cell of a grid
    over the unit interval. *)
Definition two_points (add_overlapping : bool) : PointCloud :=
  {| _elements := [at_position [1 # 4]; at_position [3 # 4]];
     _values := PerElement [1%Q; 2%Q];
     _extrapolation := BOUNDARY; _add_overlapping := add_overlapping |}.
Definition one_cell : GridCell :=
  {| bounds := {| lower := [0%Q]; upper := [1%Q] |}; resolution := [1%Z] |}.

(** A one-dimensional grid of two unit cells. *)
Definition two_cells : GridCell :=
  {| bounds := {| lower := [0%Q]; upper := [2%Q] |}; resolution := [2%Z] |}.

Definition on : Q * list Q := (1%Q, []).
Definition off : Q * list Q := (0%Q, []).

(** One batch over [two_cells]: only the second cell is occupied. *)
Definition second_cell_occupied : Density :=
  {| static_batch_known := true; spatial_rank := 1; batches := [[off; on]] |}.

(** Two batches of a 2x2 grid with two active cells each. *)
Definition two_by_two : Density :=
  {| static_batch_known := true; spatial_rank := 2;
     batches := [[[on; off]; [off; on]]; [[off; off]; [on; on]]] |}.

(** Two batches with one and two active cells. *)
Definition uneven (known : bool) : Density :=
  {| static_batch_known := known; spatial_rank := 1;
     batches := [[on; off]; [on; on]] |}.

(** A random source. *)
Definition quarter : rng := fun _ => 1 # 4.

(** A store with one point cloud. *)
Definition one_object : store := {[ 0%nat := two_points true ]}.

(** An application with two fields, each stood for by a number, and a
    console that has written nothing yet. *)
Definition two_fields (_ : unit) : list (string * nat) :=
  [("density", 1%nat); ("velocity", 2%nat)].
Definition two_fields_str (_ : unit) : string := "('density', 'velocity')".
Definition fresh_console : Console.World unit unit :=
  {| Console.app := tt; Console.config := tt; Console.stdout := [] |}.

End Examples.

(* ===================================================================== *)
(** * Properties                                                          *)
(* ===================================================================== *)

(** ** Loops and tensors *)

Section LoopFacts.
Context {S A E : Type}.

(** A loop that appends the same tensor at every turn appends it once per
    element and leaves the state alone. *)
Lemma for_in_append_const (x : E) (xs : list A) (acc : list E) (s : S) :
  Py.for_in xs (fun acc _ => Py.io_ret (acc ++ [x])) acc s
  = (inr (acc ++ repeat x (length xs)), s).
Proof.
  revert acc. induction xs as [|a xs IH]; intros acc; simpl.
  - by rewrite app_nil_r.
  - unfold Py.io_bind, Py.io_ret at 1. rewrite IH.
    by rewrite <- app_assoc.
Qed.

(** A loop that appends what [f] returns: if [f] returns on every element,
    in every state, the loop returns the results in order. *)
Lemma for_in_append_returns (f : A -> Py.io S E) (P : A -> E -> Prop)
    (xs : list A) (acc : list E) (s : S) :
  (forall x, In x xs -> forall s, exists e s', f x s = (inr e, s') /\ P x e) ->
  exists es s',
    Py.for_in xs (fun acc x => run e <- f x; Py.io_ret (acc ++ [e])) acc s
    = (inr (acc ++ es), s') /\ Forall2 P xs es.
Proof.
  revert acc s. induction xs as [|a xs IH]; intros acc s Hf; simpl.
  - exists [], s. rewrite app_nil_r. split; [reflexivity | constructor].
  - destruct (Hf a (or_introl eq_refl) s) as (e & s1 & He & HP).
    destruct (IH (acc ++ [e]) s1) as (es & s2 & Hes & HF).
    { intros x Hx. apply Hf. by right. }
    exists (e :: es), s2. split; [| by constructor].
    unfold Py.io_bind at 1. unfold Py.io_bind at 1. rewrite He.
    unfold Py.io_ret at 1. rewrite Hes. by rewrite <- app_assoc.
Qed.

(** Conversely, what the loop returns are results of [f], in order. *)
Lemma for_in_append_inv (f : A -> Py.io S E) (xs : list A) (acc r : list E) (s s' : S) :
  Py.for_in xs (fun acc x => run e <- f x; Py.io_ret (acc ++ [e])) acc s = (inr r, s') ->
  exists es, r = acc ++ es /\
    Forall2 (fun x e => exists s1 s2, f x s1 = (inr e, s2)) xs es.
Proof.
  revert acc s. induction xs as [|a xs IH]; intros acc s; simpl.
  - unfold Py.io_ret. intros [= <- <-]. exists []. rewrite app_nil_r.
    split; [reflexivity | constructor].
  - unfold Py.io_bind at 1. unfold Py.io_bind at 1.
    destruct (f a s) as [[e|x] s1] eqn:Hfa; [discriminate |].
    unfold Py.io_ret at 1. intros Hrest.
    destruct (IH _ _ Hrest) as (es & -> & HF).
    exists (x :: es). rewrite <- app_assoc. split; [reflexivity |].
    constructor; [by exists s, s1 | exact HF].
Qed.

End LoopFacts.

Section TensorFacts.
Import Math.

Lemma zip_with_length {A B C} (f : A -> B -> C) (a : list A) (b : list B) :
  length (zip_with f a b) = Nat.min (length a) (length b).
Proof.
  revert b. induction a as [|x a IH]; intros [|y b]; simpl; auto.
Qed.

Lemma tabulate_length {A} (n : nat) (f : nat -> A) : length (tabulate n f) = n.
Proof. unfold tabulate. by rewrite length_map, length_seq. Qed.

Lemma concat_repeat_length {A} (x : list A) (n : nat) :
  length (List.concat (repeat x n)) = (n * length x)%nat.
Proof.
  induction n as [|n IH]; simpl; [reflexivity |].
  rewrite length_app, IH. reflexivity.
Qed.

(** The [j]-th row of [n] copies of [x] laid end to end is row
    [j mod length x] of [x]. *)
Lemma concat_repeat_lookup {A} (x : list A) (n j : nat) :
  (j < n * length x)%nat ->
  List.concat (repeat x n) !! j = x !! (j mod length x)%nat.
Proof.
  revert j. induction n as [|n IH]; intros j Hj; simpl in *; [lia |].
  destruct (Nat.lt_ge_cases j (length x)) as [Hlt | Hge].
  - rewrite lookup_app_l by exact Hlt. by rewrite Nat.mod_small.
  - rewrite lookup_app_r by exact Hge. rewrite IH by lia.
    f_equal.
    replace j with ((j - length x) + 1 * length x)%nat at 2 by lia.
    rewrite Nat.Div0.mod_add. reflexivity.
Qed.

Lemma concat_all_length {A} (es : list (list A)) (n : nat) :
  Forall (fun e => length e = n) es ->
  length (List.concat es) = (length es * n)%nat.
Proof.
  induction 1 as [|e es He _ IH]; simpl; [reflexivity |].
  rewrite length_app, IH, He. reflexivity.
Qed.

(** [stack] accepts tensors of one shape. *)
Lemma stack_same_shape (t : points_t) (rest : list points_t) :
  Forall (fun t' => row_shape t' = row_shape t) rest ->
  stack (t :: rest) = inr (t :: rest).
Proof.
  intros H. unfold stack.
  assert (forallb (same_shape t) rest = true) as ->; [| reflexivity].
  apply forallb_forall. intros t' Hin.
  rewrite List.Forall_forall in H. unfold same_shape.
  apply bool_decide_eq_true. symmetry. by apply H.
Qed.

(** [stack] raises [ValueError] as soon as two tensors differ in their
    number of rows. *)
Lemma stack_length_mismatch (ts : list points_t) (i j : nat) (a b : points_t) :
  ts !! i = Some a -> ts !! j = Some b -> length a <> length b ->
  exists msg, stack ts = inl (Py.ValueError msg).
Proof.
  intros Hi Hj Hne. destruct ts as [|t rest]; [discriminate |].
  unfold stack.
  destruct (forallb (same_shape t) rest) eqn:Hall; [| by eexists].
  exfalso. rewrite forallb_forall in Hall.
  assert (forall k c, (t :: rest) !! k = Some c -> length c = length t) as Hlen.
  { intros [|k] c Hk; simpl in Hk.
    - by injection Hk as <-.
    - apply list_elem_of_lookup_2, list_elem_of_In, Hall in Hk.
      unfold same_shape in Hk. apply bool_decide_eq_true in Hk.
      apply (f_equal (@length nat)) in Hk. unfold row_shape in Hk.
      by rewrite !length_map in Hk. }
  apply Hne. by rewrite (Hlen _ _ Hi), (Hlen _ _ Hj).
Qed.

End TensorFacts.

(** ** Floating point *)

Section FloatFacts.
Import Math.
#[local] Open Scope Q_scope.

Lemma round_half_even_comp (x y : Q) : x == y -> round_half_even x = round_half_even y.
Proof.
  intros H. unfold round_half_even.
  rewrite (Qfloor_comp _ _ H).
  assert (x - inject_Z (Qfloor y) == y - inject_Z (Qfloor y)) as H' by (rewrite H; reflexivity).
  rewrite (Qcompare_comp _ _ H' _ _ (Qeq_refl (1 # 2))). reflexivity.
Qed.

Lemma round_half_even_floor (x : Q) :
  (Qfloor x <= round_half_even x <= Qfloor x + 1)%Z.
Proof.
  unfold round_half_even.
  destruct (x - inject_Z (Qfloor x) ?= 1 # 2); [destruct (Z.even (Qfloor x)) | |]; lia.
Qed.

Lemma round_half_even_Z (m : Z) : round_half_even (inject_Z m) = m.
Proof.
  unfold round_half_even. rewrite Qfloor_Z.
  destruct (inject_Z m - inject_Z m ?= 1 # 2) eqn:H; [| reflexivity |].
  - apply Qeq_alt in H. lra.
  - apply Qgt_alt in H. lra.
Qed.

Lemma two_to_pos (q : Z) : 0 < two_to q.
Proof. unfold two_to. apply Qpower_0_lt. reflexivity. Qed.

Lemma two_to_plus (a b : Z) : two_to (a + b) == two_to a * two_to b.
Proof. unfold two_to. apply Qpower_plus. discriminate. Qed.

Lemma two_to_Z (n : Z) : (0 <= n)%Z -> two_to n == inject_Z (2 ^ n).
Proof. intros H. unfold two_to. symmetry. apply (Zpower_Qpower 2 n H). Qed.

Lemma two_to_opp_cancel (q : Z) : two_to (- q) * two_to q == 1.
Proof. rewrite <- two_to_plus. replace (- q + q)%Z with 0%Z by lia. reflexivity. Qed.

Lemma two_to_le (a b : Z) : (a <= b)%Z -> two_to a <= two_to b.
Proof.
  intros H. replace b with (a + (b - a))%Z by lia.
  rewrite two_to_plus, (two_to_Z (b - a)) by lia.
  pose proof (two_to_pos a) as Ha.
  assert (1 <= inject_Z (2 ^ (b - a))) as H1.
  { change 1 with (inject_Z 1). rewrite <- Zle_Qle.
    pose proof (Z.pow_pos_nonneg 2 (b - a)). lia. }
  nra.
Qed.

Lemma two_to_lt_inv (a b : Z) : two_to a < two_to b -> (a < b)%Z.
Proof.
  intros H. destruct (Z.lt_ge_cases a b) as [Hlt | Hge]; [exact Hlt |].
  apply two_to_le in Hge. lra.
Qed.

(** The exponent is not above the binary logarithm. *)
Lemma exponent_le_abs (x : Q) : Qnum x <> 0%Z -> two_to (exponent x) <= Qabs x.
Proof.
  intros Hnum. unfold exponent.
  set (ln := Z.log2 (Z.abs (Qnum x))). set (ld := Z.log2 (Z.pos (Qden x))).
  destruct (Qle_bool (two_to (ln - ld)) (Qabs x)) eqn:Htest.
  - apply Qle_bool_iff in Htest. exact Htest.
  - assert (0 < Z.abs (Qnum x))%Z as Hpos by lia.
    pose proof (Z.log2_spec _ Hpos) as [Hlo _]. fold ln in Hlo.
    assert (0 < Z.pos (Qden x))%Z as Hdpos by lia.
    pose proof (Z.log2_spec _ Hdpos) as [_ Hhi]. fold ld in Hhi.
    assert (0 <= ln)%Z as Hln by apply Z.log2_nonneg.
    assert (0 <= ld)%Z as Hld by apply Z.log2_nonneg.
    (* |x| = |num| / den >= 2^ln / 2^(ld+1) *)
    assert (Qabs x == inject_Z (Z.abs (Qnum x)) / inject_Z (Z.pos (Qden x))) as Habs.
    { destruct x as [n d]. unfold Qabs. simpl. rewrite (Qmake_Qdiv (Z.abs n) d). reflexivity. }
    rewrite Habs.
    assert (two_to ln <= inject_Z (Z.abs (Qnum x))) as H1.
    { rewrite two_to_Z by lia. rewrite <- Zle_Qle. exact Hlo. }
    assert (inject_Z (Z.pos (Qden x)) <= two_to (ld + 1)) as H2.
    { rewrite two_to_Z by lia. rewrite <- Zle_Qle. unfold Z.succ in Hhi. lia. }
    assert (0 < inject_Z (Z.pos (Qden x))) as H3.
    { change 0 with (inject_Z 0). rewrite <- Zlt_Qlt. lia. }
    apply Qle_shift_div_l; [exact H3 |].
    assert (two_to (ln - ld - 1) * two_to (ld + 1) == two_to ln) as H4.
    { rewrite <- two_to_plus. replace (ln - ld - 1 + (ld + 1))%Z with ln by lia. reflexivity. }
    pose proof (two_to_pos (ln - ld - 1)) as H5.
    assert (two_to (ln - ld - 1) * inject_Z (Z.pos (Qden x))
            <= two_to (ln - ld - 1) * two_to (ld + 1)) as H6 by nra.
    rewrite H4 in H6. lra.
Qed.

Lemma Qnum_zero (x : Q) : Qnum x = 0%Z -> x == 0.
Proof. intros H. unfold Qeq. simpl. rewrite H. reflexivity. Qed.

(** A number with at most 24 significant bits, above the subnormal step,
    is a float: rounding leaves it alone. *)
Lemma fl_exact (x : Q) (m j : Z) :
  (0 <= j <= 149)%Z -> (Z.abs m < 2 ^ 24)%Z ->
  x == inject_Z m * two_to (- j) ->
  fl x = Qred x.
Proof.
  intros Hj Hm Hx. unfold fl.
  destruct (Qnum x =? 0)%Z eqn:Hzero.
  - apply Z.eqb_eq, Qnum_zero in Hzero.
    change 0 with (Qred 0). apply Qred_complete. symmetry. exact Hzero.
  - apply Z.eqb_neq in Hzero.
    set (e := exponent x). set (q := Z.max (e - 23) (-149)).
    assert (q <= - j)%Z as Hq.
    { pose proof (exponent_le_abs x Hzero) as He. fold e in He.
      assert (Qabs x < two_to (24 - j)) as Hlt.
      { rewrite Hx, Qabs_Qmult.
        rewrite (Qabs_pos (two_to (- j))) by apply Qlt_le_weak, two_to_pos.
        replace (24 - j)%Z with (24 + - j)%Z by lia. rewrite two_to_plus.
        assert (Qabs (inject_Z m) < two_to 24) as Hm'.
        { rewrite two_to_Z by lia.
          assert (Qabs (inject_Z m) == inject_Z (Z.abs m)) as -> by reflexivity.
          rewrite <- Zlt_Qlt. exact Hm. }
        pose proof (two_to_pos (- j)). nra. }
      assert (e < 24 - j)%Z by (apply two_to_lt_inv; lra).
      unfold q. lia. }
    set (n := (- j - q)%Z).
    assert (x * two_to (- q) == inject_Z (m * 2 ^ n)) as Hscaled.
    { rewrite Hx, <- Qmult_assoc, <- two_to_plus.
      replace (- j + - q)%Z with n by (unfold n; lia).
      rewrite two_to_Z by (unfold n; lia). rewrite inject_Z_mult. reflexivity. }
    rewrite (round_half_even_comp _ _ Hscaled), round_half_even_Z.
    apply Qred_complete.
    rewrite inject_Z_mult, <- (two_to_Z n) by (unfold n; lia).
    rewrite <- Qmult_assoc, <- two_to_plus.
    replace (n + q)%Z with (- j)%Z by (unfold n; lia).
    symmetry. exact Hx.
Qed.

Lemma fl_integer (z : Z) : (Z.abs z < 2 ^ 24)%Z -> fl (inject_Z z) = inject_Z z.
Proof.
  intros Hz. rewrite (fl_exact (inject_Z z) z 0) by (try lia; simpl; ring).
  apply Qcanon.Qred_identity. simpl. apply Z.gcd_1_r.
Qed.

Lemma fl_half (i : Z) :
  (0 <= i < 2 ^ 23)%Z -> fl (inject_Z i + (1 # 2)) = (inject_Z i + (1 # 2))%Q.
Proof.
  intros Hi.
  rewrite (fl_exact (inject_Z i + (1 # 2)) (2 * i + 1) 1).
  - apply Qcanon.Qred_identity. unfold Qplus, inject_Z. simpl.
    change (Z.gcd (i * 2 + 1) 2 = 1%Z).
    replace (i * 2 + 1)%Z with (1 + i * 2)%Z by lia.
    rewrite Z.gcd_comm, Z.gcd_add_mult_diag_r. reflexivity.
  - lia.
  - lia.
  - rewrite inject_Z_plus, inject_Z_mult. unfold two_to. simpl. field.
Qed.

(** Adding an offset below one to a small index stays between the index
    and the next one; the upper end is reached when the sum rounds up. *)
Lemma fl_between (i : Z) (u : Q) :
  (0 <= i < 2 ^ 23)%Z -> 0 <= u -> u < 1 ->
  inject_Z i <= fl (inject_Z i + u) /\ fl (inject_Z i + u) <= inject_Z i + 1.
Proof.
  intros Hi Hu0 Hu1.
  assert (0 <= inject_Z i) as Hi0.
  { change 0 with (inject_Z 0). rewrite <- Zle_Qle. lia. }
  set (x := inject_Z i + u). unfold fl.
  destruct (Qnum x =? 0)%Z eqn:Hzero.
  - apply Z.eqb_eq, Qnum_zero in Hzero. unfold x in Hzero. split; lra.
  - apply Z.eqb_neq in Hzero.
    set (e := exponent x). set (q := Z.max (e - 23) (-149)).
    assert (q <= -1)%Z as Hq.
    { pose proof (exponent_le_abs x Hzero) as He. fold e in He.
      assert (Qabs x < two_to 23) as Hlt.
      { rewrite Qabs_pos by (unfold x; lra). rewrite two_to_Z by lia.
        assert (inject_Z i + 1 <= inject_Z (2 ^ 23)) as Hle.
        { change 1 with (inject_Z 1). rewrite <- inject_Z_plus, <- Zle_Qle. lia. }
        unfold x. lra. }
      assert (e < 23)%Z by (apply two_to_lt_inv; lra).
      unfold q. lia. }
    set (n := (- q)%Z).
    set (s := x * two_to n).
    assert (two_to n == inject_Z (2 ^ n)) as Hn by (apply two_to_Z; unfold n; lia).
    assert (0 < inject_Z (2 ^ n)) as Hpos by (rewrite <- Hn; apply two_to_pos).
    assert (inject_Z (i * 2 ^ n) <= s) as Hlo.
    { unfold s, x. rewrite inject_Z_mult, Hn. nra. }
    assert (s < inject_Z ((i + 1) * 2 ^ n)) as Hhi.
    { unfold s, x. rewrite inject_Z_mult, inject_Z_plus, Hn.
      change (inject_Z 1) with 1. nra. }
    pose proof (round_half_even_floor s) as [Hr1 Hr2].
    assert (i * 2 ^ n <= Qfloor s)%Z as Hf1.
    { rewrite <- (Qfloor_Z (i * 2 ^ n)). by apply Qfloor_resp_le. }
    assert (Qfloor s < (i + 1) * 2 ^ n)%Z as Hf2.
    { rewrite Zlt_Qlt. pose proof (Qfloor_le s). lra. }
    set (r := round_half_even s) in *.
    assert (inject_Z (i * 2 ^ n) <= inject_Z r) as Hr1' by (rewrite <- Zle_Qle; lia).
    assert (inject_Z r <= inject_Z ((i + 1) * 2 ^ n)) as Hr2' by (rewrite <- Zle_Qle; lia).
    rewrite Qred_correct.
    assert (two_to n * two_to q == 1) as Hinv.
    { rewrite <- two_to_plus. replace (n + q)%Z with 0%Z by (unfold n; lia). reflexivity. }
    pose proof (two_to_pos q) as Hqpos.
    rewrite inject_Z_mult, <- Hn in Hr1'.
    rewrite inject_Z_mult, inject_Z_plus, <- Hn in Hr2'.
    change (inject_Z 1) with 1 in Hr2'.
    split; nra.
Qed.

End FloatFacts.

(** ** Particle seeding *)

Section SeedingFacts.
Import Math Seeding.

Variable rand : rng.

Lemma number_rows_Forall (P Q' : list Z -> Prop) (i : Z) (rows : list indices_t) :
  (forall z row, P row -> Q' (z :: row)) ->
  Forall (Forall P) rows -> Forall Q' (number_rows i rows).
Proof.
  intros HPQ H. revert i. induction H as [|r rows Hr _ IH]; intros i; simpl.
  - constructor.
  - apply Forall_app. split; [| apply IH].
    apply Forall_fmap. eapply Forall_impl; [exact Hr |]. intros row. apply HPQ.
Qed.

(** Every index vector [where_] returns has one entry per axis. *)
Lemma where_row_length (rank : nat) (cond : nd bool rank) :
  Forall (fun row => length row = rank) (where_ rank cond).
Proof.
  induction rank as [|rank IH]; simpl.
  - destruct cond; repeat constructor.
  - apply number_rows_Forall with (P := fun row => length row = rank).
    + intros z row <-. reflexivity.
    + apply Forall_fmap, Forall_forall. intros sub _. apply IH.
Qed.

Lemma active_cells_row_length {rank} (t : nd (Q * list Q) rank) :
  Forall (fun row => length row = rank) (active_cells t).
Proof. apply where_row_length. Qed.

Lemma cell_centers_lookup (cells : indices_t) (j : nat) :
  cell_centers cells !! j
  = option_map (List.map (fun i => fl (fl (inject_Z i) + (1 # 2)))) (cells !! j).
Proof.
  unfold cell_centers, add_scalar, to_float.
  revert j. induction cells as [|c cells IH]; intros [|j]; simpl; try reflexivity.
  - by rewrite List.map_map.
  - apply IH.
Qed.

Lemma range_length (k : Z) : length (range k) = Z.to_nat k.
Proof. apply length_seq. Qed.

(** With 'center' the tensor of a batch is [particles_per_cell] copies of
    its cell centers, and the random source is not used. *)
Lemma batch_points_center (d : Density) (k : Z) (b : nat)
    (t : nd (Q * list Q) (spatial_rank d)) (s : nat) :
  (0 < k)%Z -> batches d !! b = Some t ->
  batch_points rand d k "center" b s
  = (inr (List.concat (repeat (cell_centers (active_cells t)) (Z.to_nat k))), s).
Proof.
  intros Hk Hb. unfold batch_points, getitem. rewrite Hb.
  unfold Py.io_bind at 1. unfold Py.lift at 1, Py.ret.
  unfold Py.io_bind. simpl String.eqb. cbv iota.
  rewrite for_in_append_const, range_length. simpl app.
  destruct (Z.to_nat k) as [|n] eqn:Hn; [lia |].
  reflexivity.
Qed.

Lemma for_in_uniform (indices : points_t) (xs : list nat) (temp : list points_t) (s : nat) :
  exists es s',
    Py.for_in xs (fun temp _ =>
        run offsets <- random_uniform rand (shape indices);
        Py.io_ret (temp ++ [add_tensor indices offsets])) temp s
    = (inr (temp ++ es), s')
    /\ length es = length xs
    /\ Forall (fun e => length e = length indices) es.
Proof.
  revert temp s. induction xs as [|x xs IH]; intros temp s; simpl.
  - exists [], s. rewrite app_nil_r. repeat split; constructor.
  - unfold Py.io_bind at 1. unfold Py.io_bind at 1.
    unfold random_uniform at 1, shape at 1. unfold Py.io_ret at 1.
    match goal with |- context [Py.for_in xs _ (temp ++ [?e]) ?s1] =>
      destruct (IH (temp ++ [e]) s1) as (es & s2 & Hes & Hlen & Hall);
      exists (e :: es), s2; rewrite Hes, <- app_assoc;
      repeat split; [simpl; by rewrite Hlen |];
      constructor; [| exact Hall]
    end.
    unfold add_tensor. rewrite zip_with_length, tabulate_length. lia.
Qed.

(** With either distribution a batch contributes [particles_per_cell]
    points per active cell. *)
Lemma batch_points_length (d : Density) (k : Z) (distribution : string) (b : nat)
    (t : nd (Q * list Q) (spatial_rank d)) (s : nat) :
  (0 < k)%Z -> distribution = "center" \/ distribution = "uniform" ->
  batches d !! b = Some t ->
  exists pts s',
    batch_points rand d k distribution b s = (inr pts, s')
    /\ length pts = (Z.to_nat k * length (active_cells t))%nat.
Proof.
  intros Hk [-> | ->] Hb.
  - eexists _, s. split; [by apply batch_points_center |].
    rewrite (concat_repeat_length (cell_centers (active_cells t))). unfold cell_centers, add_scalar, to_float.
    by rewrite !length_map.
  - unfold batch_points, getitem. rewrite Hb.
    unfold Py.io_bind at 1. unfold Py.lift at 1, Py.ret.
    unfold Py.io_bind at 1. simpl String.eqb. cbv iota.
    destruct (for_in_uniform (to_float (where_ _ (greater_than_zero (nd_map fst _ t))))
                (range k) [] s) as (es & s' & -> & Hlen & Hall).
    simpl app. rewrite range_length in Hlen.
    destruct es as [|e es]; [simpl in Hlen; lia |].
    eexists _, s'. split; [reflexivity |].
    rewrite (concat_all_length _ _ Hall), Hlen.
    unfold to_float, active_cells. by rewrite length_map.
Qed.

(** The rows of the tensor of a batch all have [spatial_rank] entries, so
    its shape is decided by its number of rows. *)
Lemma cell_centers_row_shape {rank} (t : nd (Q * list Q) rank) (n : nat) :
  row_shape (List.concat (repeat (cell_centers (active_cells t)) n))
  = repeat rank (n * length (active_cells t)).
Proof.
  unfold row_shape.
  assert (List.map (@length Q) (cell_centers (active_cells t))
          = repeat rank (length (active_cells t))) as Hrows.
  { unfold cell_centers, add_scalar, to_float. rewrite !List.map_map.
    pose proof (active_cells_row_length t) as H.
    induction H as [|row rows Hrow _ IH]; simpl; [reflexivity |].
    rewrite !length_map, Hrow. f_equal. exact IH. }
  induction n as [|n IH]; simpl; [reflexivity |].
  rewrite List.map_app, IH, Hrows, repeat_app. reflexivity.
Qed.

(** With a distribution the assertion accepts, the function is the loop
    over the batches followed by the guarded [stack]. *)
Lemma distribute_points_unfold (d : Density) (k : Z) (distribution : string) (s : nat) :
  distribution = "center" \/ distribution = "uniform" ->
  _distribute_points rand d k distribution s
  = match Py.for_in (seq 0 (batch_size d)) (fun index_array batch =>
            run entry <- batch_points rand d k distribution batch;
            Py.io_ret (index_array ++ [entry])) [] s with
    | (inl e, s') => (inl e, s')
    | (inr index_array, s') =>
        (Py.reraise_ValueError (stack index_array) same_count_message, s')
    end.
Proof. intros [-> | ->]; reflexivity. Qed.

Lemma stack_returns_argument (ts r : list points_t) (msg : string) :
  Py.reraise_ValueError (stack ts) msg = inr r -> r = ts.
Proof.
  unfold stack. destruct ts as [|t rest]; [discriminate |].
  destruct (forallb _ rest); [| discriminate]. by intros [= <-].
Qed.

(** Every batch index the loop visits has a batch entry, as soon as one
    visited index has. *)
Lemma visited_batch_exists (d : Density) (b b' : nat) :
  (b < batch_size d)%nat -> is_Some (batches d !! b) ->
  (b' < batch_size d)%nat -> is_Some (batches d !! b').
Proof.
  unfold batch_size, staticshape0. destruct (static_batch_known d).
  - intros _ _ Hb'. by apply lookup_lt_is_Some.
  - intros Hb Ht Hb'. replace b' with b by lia. exact Ht.
Qed.

(** A loop whose body returns without touching the state. *)
Lemma for_in_append_pure {A E : Type} (f : A -> Py.io nat E) (P : A -> E -> Prop)
    (xs : list A) (acc : list E) (s : nat) :
  (forall x, In x xs -> forall s, exists e, f x s = (inr e, s) /\ P x e) ->
  exists es,
    Py.for_in xs (fun acc x => run e <- f x; Py.io_ret (acc ++ [e])) acc s
    = (inr (acc ++ es), s) /\ Forall2 P xs es.
Proof.
  revert acc. induction xs as [|a xs IH]; intros acc Hf; simpl.
  - exists []. rewrite app_nil_r. split; [reflexivity | constructor].
  - destruct (Hf a (or_introl eq_refl) s) as (e & He & HP).
    destruct (IH (acc ++ [e])) as (es & Hes & HF).
    { intros x Hx. apply Hf. by right. }
    exists (e :: es). split; [| by constructor].
    unfold Py.io_bind at 1. unfold Py.io_bind at 1. rewrite He.
    unfold Py.io_ret at 1. rewrite Hes. by rewrite <- app_assoc.
Qed.

Lemma number_rows_nonneg (i : Z) (rows : list indices_t) :
  (0 <= i)%Z ->
  Forall (Forall (Forall (fun z => 0 <= z)%Z)) rows ->
  Forall (Forall (fun z => 0 <= z)%Z) (number_rows i rows).
Proof.
  intros Hi H. revert i Hi. induction H as [|r rows Hr _ IH]; intros i Hi; simpl.
  - constructor.
  - apply Forall_app. split; [| apply IH; lia].
    apply Forall_fmap. eapply Forall_impl; [exact Hr |].
    intros row Hrow. simpl. by constructor.
Qed.

(** No index [where_] returns is negative. *)
Lemma where_nonneg (rank : nat) (cond : nd bool rank) :
  Forall (Forall (fun z => 0 <= z)%Z) (where_ rank cond).
Proof.
  induction rank as [|rank IH]; simpl.
  - destruct cond; repeat constructor.
  - apply number_rows_nonneg; [lia |].
    apply Forall_fmap, Forall_forall. intros sub _. apply IH.
Qed.

(** Below [2^23] the centre of a cell is computed without rounding. *)
Lemma cell_centre_exact (cell : list Z) :
  Forall (fun i => 0 <= i < 2 ^ 23)%Z cell ->
  List.map (fun i => fl (fl (inject_Z i) + (1 # 2))) cell
  = List.map (fun i => inject_Z i + (1 # 2))%Q cell.
Proof.
  induction 1 as [|i cell Hi _ IH]; simpl; [reflexivity |].
  rewrite IH, fl_integer by lia. by rewrite fl_half.
Qed.

(** C5 (seeding count), as amended.  With distribution 'center' and a
    positive [particles_per_cell] = k: when [b] is a batch the loop visits,
    with A active cells, all visited batches have A active cells and the
    active indices of [b] are below [2^23], the call returns, whatever the
    random source, and the entry of [b] has exactly k*A points, each an
    active cell's index vector plus 0.5 on every axis. *)
Theorem seeding_count_center (d : Density) (k : Z) (b : nat)
    (t : nd (Q * list Q) (spatial_rank d)) (s : nat) :
  (0 < k)%Z -> (b < batch_size d)%nat -> batches d !! b = Some t ->
  (forall b' t', (b' < batch_size d)%nat -> batches d !! b' = Some t' ->
     length (active_cells t') = length (active_cells t)) ->
  Forall (Forall (fun i => i < 2 ^ 23)%Z) (active_cells t) ->
  exists (r : list points_t) (pts : points_t),
    _distribute_points rand d k "center" s = (inr r, s)
    /\ r !! b = Some pts
    /\ Z.of_nat (length pts) = (k * Z.of_nat (length (active_cells t)))%Z
    /\ (forall j p, pts !! j = Some p ->
          exists cell,
            active_cells t !! (j mod length (active_cells t))%nat = Some cell
            /\ p = List.map (fun i => inject_Z i + (1 # 2))%Q cell).
Proof.
  intros Hk Hb Ht Hsame Hsmall.
  set (cells := active_cells t) in *.
  set (pts := List.concat (repeat (cell_centers cells) (Z.to_nat k))).
  assert (length (cell_centers cells) = length cells) as Hcc.
  { unfold cell_centers, add_scalar, to_float. by rewrite !length_map. }
  assert (length pts = (Z.to_nat k * length cells)%nat) as Hlen.
  { unfold pts. by rewrite concat_repeat_length, Hcc. }
  destruct (for_in_append_pure
              (fun batch => batch_points rand d k "center" batch)
              (fun b' e => row_shape e = row_shape pts /\ (b' = b -> e = pts))
              (seq 0 (batch_size d)) [] s) as (es & Hloop & HF).
  { intros b' Hb' s0. apply in_seq in Hb'.
    destruct (visited_batch_exists d b b' Hb (mk_is_Some _ _ Ht)) as [t' Ht'];
      [lia |].
    eexists. split; [by apply batch_points_center |]. split.
    - unfold pts, cells in *. rewrite !cell_centers_row_shape.
      rewrite (Hsame b' t'); [reflexivity | lia | exact Ht'].
    - intros ->. rewrite Ht in Ht'. by injection Ht' as <-. }
  assert (stack es = inr es) as Hstack.
  { destruct es as [|e es].
    - apply Forall2_length in HF. rewrite length_seq in HF. simpl in HF. lia.
    - apply stack_same_shape.
      assert (Forall (fun e' => row_shape e' = row_shape pts) (e :: es)) as Hall.
      { clear -HF. induction HF as [|? ? ? ? [H _]]; constructor; auto. }
      inversion Hall as [|? ? He Hes]; subst.
      eapply Forall_impl; [exact Hes |]. intros e' He'. simpl in He'. congruence. }
  exists es, pts. split; [| split; [| split]].
  - rewrite distribute_points_unfold by (by left).
    rewrite Hloop. simpl. by rewrite Hstack.
  - destruct (Forall2_lookup_l _ _ _ b b HF) as (e & He & _ & Hpts).
    { by apply lookup_seq_lt. }
    by rewrite He, Hpts.
  - rewrite Hlen. lia.
  - intros j p Hj.
    assert (j < Z.to_nat k * length (cell_centers cells))%nat as Hjlt.
    { apply lookup_lt_Some in Hj. by rewrite Hlen, <- Hcc in Hj. }
    unfold pts in Hj. rewrite concat_repeat_lookup in Hj by exact Hjlt.
    rewrite cell_centers_lookup, Hcc in Hj.
    destruct (cells !! (j mod length cells)%nat) as [cell|] eqn:Hcell;
      [| discriminate].
    exists cell. split; [reflexivity |]. injection Hj as <-.
    apply cell_centre_exact.
    apply list_elem_of_lookup_2 in Hcell.
    pose proof (where_nonneg _ (greater_than_zero (nd_map fst _ t))) as Hnonneg.
    fold (active_cells t) in Hnonneg. fold cells in Hnonneg.
    rewrite List.Forall_forall in Hnonneg, Hsmall.
    apply list_elem_of_In in Hcell.
    specialize (Hnonneg cell Hcell). specialize (Hsmall cell Hcell).
    rewrite List.Forall_forall in Hnonneg, Hsmall.
    apply List.Forall_forall. intros i Hi.
    specialize (Hnonneg i Hi). specialize (Hsmall i Hi). lia.
Qed.

(** C6, as amended.  When the static shape knows the leading dimension,
    [particles_per_cell] is positive and the distribution is one of the
    two the assertion accepts, two batch entries with different numbers of
    active cells make the call raise the [ValueError] of line 78 (the
    spec's ShapeMismatch): no result is returned, truncated or padded. *)
Theorem seeding_mismatch_fails (d : Density) (k : Z) (distribution : string) (s : nat)
    (i j : nat) (ti tj : nd (Q * list Q) (spatial_rank d)) :
  static_batch_known d = true ->
  (0 < k)%Z -> distribution = "center" \/ distribution = "uniform" ->
  batches d !! i = Some ti -> batches d !! j = Some tj ->
  length (active_cells ti) <> length (active_cells tj) ->
  exists s', _distribute_points rand d k distribution s
             = (inl (Py.ValueError same_count_message), s').
Proof.
  intros Hknown Hk Hdist Hi Hj Hne.
  assert (batch_size d = length (batches d)) as Hsize.
  { unfold batch_size, staticshape0. by rewrite Hknown. }
  rewrite distribute_points_unfold by exact Hdist.
  destruct (for_in_append_returns
              (fun batch => batch_points rand d k distribution batch)
              (fun b e => forall t, batches d !! b = Some t ->
                                    length e = (Z.to_nat k * length (active_cells t))%nat)
              (seq 0 (batch_size d)) [] s) as (es & s' & -> & HF).
  { intros b Hb s0. apply in_seq in Hb. rewrite Hsize in Hb.
    destruct (lookup_lt_is_Some_2 (batches d) b) as [t Ht]; [lia |].
    destruct (batch_points_length d k distribution b t s0 Hk Hdist Ht)
      as (pts & s1 & Hrun & Hlen).
    exists pts, s1. split; [exact Hrun |].
    intros t' Ht'. rewrite Ht in Ht'. by injection Ht' as <-. }
  exists s'. simpl app.
  assert (forall b t, batches d !! b = Some t ->
            exists e, es !! b = Some e
                      /\ length e = (Z.to_nat k * length (active_cells t))%nat) as Hes.
  { intros b t Hb.
    destruct (Forall2_lookup_l _ _ _ b b HF) as (e & He & Hlen).
    { apply lookup_seq_lt. rewrite Hsize. by apply lookup_lt_Some in Hb. }
    exists e. split; [exact He | by apply Hlen]. }
  destruct (Hes i ti Hi) as (ei & Hei & Hleni).
  destruct (Hes j tj Hj) as (ej & Hej & Hlenj).
  destruct (stack_length_mismatch es i j ei ej Hei Hej) as [msg ->]; [nia |].
  reflexivity.
Qed.

(** C10 (unknown leading dimension).  When the static shape does not
    know the leading dimension, the batch size is taken to be 1: whatever
    the function returns has exactly one entry, the tensor of batch 0; it
    does return when batch 0 is there, [particles_per_cell] is positive
    and the distribution is accepted; and nothing beyond batch 0 is looked
    at: the call behaves as on the density cut down to its first batch. *)
Theorem seeding_unknown_batch_size (d : Density) (k : Z) (distribution : string) (s : nat) :
  static_batch_known d = false ->
  batch_size d = 1%nat
  /\ (forall r s', _distribute_points rand d k distribution s = (inr r, s') ->
        exists entry, r = [entry]
          /\ batch_points rand d k distribution 0 s = (inr entry, s'))
  /\ (forall t, (0 < k)%Z -> distribution = "center" \/ distribution = "uniform" ->
        batches d !! 0%nat = Some t ->
        exists entry s', _distribute_points rand d k distribution s = (inr [entry], s'))
  /\ _distribute_points rand d k distribution s
     = _distribute_points rand
         {| static_batch_known := false; spatial_rank := spatial_rank d;
            batches := take 1 (batches d) |} k distribution s.
Proof.
  intros Hunknown.
  assert (batch_size d = 1%nat) as Hsize.
  { unfold batch_size, staticshape0. by rewrite Hunknown. }
  assert (forall r s', _distribute_points rand d k distribution s = (inr r, s') ->
            exists entry, r = [entry]
              /\ batch_points rand d k distribution 0 s = (inr entry, s')) as Hone.
  { intros r s'. unfold _distribute_points. rewrite Hsize.
    unfold Py.io_bind at 1.
    destruct (bool_decide _); simpl; [| discriminate].
    unfold Py.io_bind.
    destruct (batch_points rand d k distribution 0 s) as [[e | entry] s1];
      [discriminate |].
    simpl. intros [= <- <-]. by exists entry. }
  split; [exact Hsize |]. split; [exact Hone |]. split.
  - intros t Hk Hdist Ht.
    destruct (batch_points_length d k distribution 0 t s Hk Hdist Ht)
      as (entry & s' & Hrun & _).
    exists entry, s'. rewrite distribute_points_unfold by exact Hdist.
    rewrite Hsize. simpl. unfold Py.io_bind. rewrite Hrun. reflexivity.
  - unfold _distribute_points. rewrite Hsize.
    unfold batch_size at 1, staticshape0 at 1. simpl static_batch_known. cbv iota.
    unfold Py.io_bind at 1. unfold Py.io_bind at 3.
    destruct (Py.assert_ _ s) as [[e | u] s0]; [reflexivity |].
    simpl. unfold Py.io_bind.
    assert (batch_points rand d k distribution 0 s0
            = batch_points rand
                {| static_batch_known := false; spatial_rank := spatial_rank d;
                   batches := take 1 (batches d) |} k distribution 0 s0) as ->;
      [| reflexivity].
    unfold batch_points, getitem. simpl.
    by destruct (batches d).
Qed.

End SeedingFacts.

(** ** Rounding *)

Section RoundingFacts.
Import Math.

Lemma map_lookup {A B} (f : A -> B) (l : list A) (i : nat) :
  List.map f l !! i = option_map f (l !! i).
Proof.
  revert i. induction l as [|a l IH]; intros [|i]; simpl; try reflexivity.
  apply IH.
Qed.

Lemma zip_with_lookup {A B C} (f : A -> B -> C) (a : list A) (b : list B)
    (i : nat) (x : A) (y : B) :
  a !! i = Some x -> b !! i = Some y -> zip_with f a b !! i = Some (f x y).
Proof.
  revert b i. induction a as [|x' a IH]; intros [|y' b] [|i]; simpl; try discriminate.
  - by intros [= ->] [= ->].
  - apply IH.
Qed.

(** [round_half_even] is at most one half away from its argument: it is a
    nearest integer. *)
Lemma round_half_even_nearest (x : Q) :
  (Qabs (inject_Z (round_half_even x) - x) <= 1 # 2)%Q.
Proof.
  pose proof (Qfloor_le x) as Hlo.
  pose proof (Qlt_floor x) as Hhi.
  rewrite inject_Z_plus in Hhi. change (inject_Z 1) with 1%Q in Hhi.
  apply Qabs_Qle_condition.
  unfold round_half_even.
  destruct (x - inject_Z (Qfloor x) ?= 1 # 2)%Q eqn:Hcmp.
  - apply Qeq_alt in Hcmp.
    destruct (Z.even (Qfloor x));
      [| rewrite inject_Z_plus; change (inject_Z 1) with 1%Q]; split; lra.
  - apply Qlt_alt in Hcmp. split; lra.
  - apply Qgt_alt in Hcmp.
    rewrite inject_Z_plus. change (inject_Z 1) with 1%Q. split; lra.
Qed.

End RoundingFacts.

(** ** The point cloud *)

Section PointCloudFacts.
Import Math Field.

Variable global_to_local : Box -> list Q -> list Q.
Variable other_attr : PointCloud -> string -> option pyobj.
Variable scatter : pyobj -> pyobj -> Values -> pyobj -> pyobj -> Py.result (ndarray Q).


(** Neither [valid_indices] nor [shape] is bound when line 41 runs. *)
Lemma load_global_valid_indices :
  load_global "valid_indices" = Py.raise (Py.NameError "valid_indices").
Proof. reflexivity. Qed.

Lemma load_global_shape : load_global "shape" = Py.raise (Py.NameError "shape").
Proof. reflexivity. Qed.

(** Line 41 cannot be evaluated: reading [self.sample_points] fails, or
    else reading [valid_indices] does. *)
Lemma grid_scatter_raises (self : PointCloud) (box : Box) (resolution : Shape) :
  _grid_scatter global_to_local other_attr scatter self box resolution
  = Py.raise (Py.AttributeError "sample_points")
  \/ _grid_scatter global_to_local other_attr scatter self box resolution
     = Py.raise (Py.NameError "valid_indices").
Proof.
  unfold _grid_scatter, getattr.
  destruct (other_attr self "sample_points"); [right | left]; reflexivity.
Qed.

(** C2 (destination index), as the code has it.  Line 40 computes the
    index, from the box, the resolution and the geometry's map, and line
    41 does not use it: it passes the unbound name [valid_indices].  So
    the call is the same for every box, every resolution and every map to
    local coordinates, and for every backend scatter, which is never
    reached: no element gets a destination cell. *)
Theorem grid_scatter_discards_index (self : PointCloud) (box box' : Box)
    (resolution resolution' : Shape)
    (global_to_local' : Box -> list Q -> list Q)
    (scatter' : pyobj -> pyobj -> Values -> pyobj -> pyobj -> Py.result (ndarray Q)) :
  _grid_scatter global_to_local other_attr scatter self box resolution
  = _grid_scatter global_to_local' other_attr scatter' self box' resolution'
  /\ Py.fails (_grid_scatter global_to_local other_attr scatter self box resolution).
Proof.
  unfold _grid_scatter, getattr.
  destruct (other_attr self "sample_points"); simpl; split;
    try reflexivity; by eexists.
Qed.

(** C8 (result of the scatter), as the code has it.  Line 41 reads the
    names [valid_indices] and [shape], which nothing binds: whatever the
    attributes of the base class, the backend, the box and the resolution,
    [_grid_scatter] raises before line 42 builds the [CenteredGrid], so no
    grid with the box and the extrapolation of the cloud is returned. *)
Theorem grid_scatter_never_returns (self : PointCloud) (box : Box) (resolution : Shape) :
  Py.fails (_grid_scatter global_to_local other_attr scatter self box resolution)
  /\ forall data : ndarray Q,
      _grid_scatter global_to_local other_attr scatter self box resolution
      <> Py.ret {| grid_values := data; grid_box := box;
                   grid_extrapolation := extrapolation self |}.
Proof.
  destruct (grid_scatter_raises self box resolution) as [H | H]; rewrite H.
  - split; [by eexists | discriminate].
  - split; [by eexists | discriminate].
Qed.

(** C1 (sum or mean of overlapping values), as the code has it.  Two
    points with the values 1 and 2 inside the one cell of a 1-cell grid:
    with [add_overlapping] true and with it false the scatter raises on
    line 41, so it returns neither the sum 3 nor the mean 3/2. *)
Theorem scatter_one_cell_raises (add_overlapping : bool) :
  let result :=
    sample_at global_to_local other_attr scatter
      (Examples.two_points add_overlapping) (AtGridCell Examples.one_cell) [] in
  (result = Py.raise (Py.AttributeError "sample_points")
   \/ result = Py.raise (Py.NameError "valid_indices"))
  /\ ~ Py.succeeds result.
Proof.
  simpl.
  destruct (grid_scatter_raises (Examples.two_points add_overlapping)
              {| lower := [0%Q]; upper := [1%Q] |} [1%Z]) as [H | H];
    rewrite H; (split; [auto | intros [grid Hgrid]; discriminate]).
Qed.

End PointCloudFacts.

Section MaskFacts.
Import Field.

(** C4 (mask).  [self.mask()] builds a new object, at a reference that
    was not in use: it has the elements of [self], the value 1, the
    extrapolation ZERO and [add_overlapping] false; the object [self]
    refers to, and every other object, is as before. *)
Theorem mask_new_object (h : store) (self : ref) (obj : PointCloud) :
  h !! self = Some obj ->
  exists (h' : store) (r : ref),
    call_mask h self = Some (h', r)
    /\ h !! r = None
    /\ h' !! r = Some {| _elements := _elements obj; _values := Scalar 1;
                         _extrapolation := ZERO; _add_overlapping := false |}
    /\ h' !! self = Some obj
    /\ (forall r' : ref, r' <> r -> h' !! r' = h !! r').
Proof.
  intros Hself. unfold call_mask, new. rewrite Hself.
  set (r := fresh (dom h)).
  assert (h !! r = None) as Hfresh.
  { apply not_elem_of_dom. apply is_fresh. }
  exists (<[r := mask obj]> h), r.
  split; [reflexivity |]. split; [exact Hfresh |].
  split; [by rewrite lookup_insert_eq |]. split.
  - rewrite lookup_insert_ne; [exact Hself |]. intros ->. congruence.
  - intros r' Hne. by rewrite lookup_insert_ne.
Qed.

End MaskFacts.

(** ** The console *)

Section ConsoleFacts.
Import Console.

Variable FieldObj : Type.
Variable isinstance_StaggeredGrid : FieldObj -> bool.
Variable at_centers : FieldObj -> FieldObj.
Variable vec_squared : FieldObj -> FieldObj.
Variable heatmap : FieldObj -> Z -> Z -> list string.
Variable App : Type.
Variable app_step app_play app_pause : App -> App.
Variable registry : App -> list (string * FieldObj).
Variable str_fieldnames : App -> string.
Variable Config : Type.
Variable ordered_field_names : App -> Config -> list string.
Variable terminal_size : Z * Z.

Abbreviation World := (World App Config).
Abbreviation draw := (draw FieldObj isinstance_StaggeredGrid at_centers vec_squared
                    heatmap App registry str_fieldnames Config ordered_field_names
                    terminal_size).
Abbreviation written := (written App Config).
Abbreviation missing_field_message := (missing_field_message App str_fieldnames).
Abbreviation draw_lookup := (draw_lookup FieldObj App registry str_fieldnames Config).
Abbreviation command_loop := (command_loop FieldObj isinstance_StaggeredGrid at_centers
                    vec_squared heatmap App app_step app_play app_pause registry
                    str_fieldnames Config ordered_field_names terminal_size).

Lemma lookup_field_found (fields : list (string * FieldObj)) (name : string) :
  In name (List.map fst fields) -> exists v, lookup_field FieldObj fields name = inr v.
Proof.
  induction fields as [|[n f] fields IH]; simpl; [intros [] |].
  intros Hin. destruct (String.eqb n name) eqn:Heq; [by exists f |].
  apply IH. destruct Hin as [-> | Hin]; [| exact Hin].
  by rewrite String.eqb_refl in Heq.
Qed.

Lemma lookup_field_missing (fields : list (string * FieldObj)) (name : string) :
  ~ In name (List.map fst fields) ->
  lookup_field FieldObj fields name = inl (Py.KeyError name).
Proof.
  induction fields as [|[n f] fields IH]; simpl; [reflexivity |].
  intros Hnot. destruct (String.eqb n name) eqn:Heq.
  - apply String.eqb_eq in Heq. tauto.
  - apply IH. tauto.
Qed.

(** The loop of lines 62-67 stops at the first name the registry does not
    have: it prints the message and signals the [return]. *)
Lemma draw_lookup_missing (w : World) (found : list string) (n : string)
    (rest : list string) (values : list FieldObj) :
  Forall (fun m => In m (fieldnames FieldObj App registry (app _ _ w))) found ->
  ~ In n (fieldnames FieldObj App registry (app _ _ w)) ->
  draw_lookup (found ++ n :: rest) values w
  = (inr None, written w [missing_field_message (app _ _ w) n]).
Proof.
  intros Hfound Hmissing. revert values.
  induction Hfound as [|m found Hm _ IH]; intros values; simpl.
  - unfold Py.io_bind, read_world, get_field.
    rewrite (lookup_field_missing _ _ Hmissing).
    reflexivity.
  - unfold Py.io_bind at 1. unfold read_world at 1, get_field.
    destruct (lookup_field_found _ _ Hm) as [v ->]. apply IH.
Qed.

(** C9 (unknown field name).  When [draw] is asked for names of which
    [n] is the first the registry does not have, it writes the message
    with the available field names, and nothing else, and returns.  The
    command loop therefore goes on: after the command [show <names>] it
    reads the next command. *)
Theorem draw_missing_field_not_fatal (w : World) (found : list string) (n : string)
    (rest : list string) :
  Forall (fun m => In m (fieldnames FieldObj App registry (app _ _ w))) found ->
  ~ In n (fieldnames FieldObj App registry (app _ _ w)) ->
  get_field FieldObj App registry (app _ _ w) n = Py.raise (Py.KeyError n)
  /\ draw (Some (found ++ n :: rest)) w
     = (inr tt, written w [missing_field_message (app _ _ w) n])
  /\ (forall (arg : string) (more : list string),
        List.map strip (split_comma arg) = found ++ n :: rest ->
        command_loop (("show " +:+ arg) :: more) w
        = command_loop more
            (written w ["PhiFlow>"; missing_field_message (app _ _ w) n])).
Proof.
  intros Hfound Hmissing.
  assert (forall w0 : World, app _ _ w0 = app _ _ w ->
            draw (Some (found ++ n :: rest)) w0
            = (inr tt, written w0 [missing_field_message (app _ _ w) n])) as Hdraw.
  { intros w0 Happ. unfold Console.draw, draw_fields, Py.io_bind.
    rewrite draw_lookup_missing by (by rewrite Happ).
    by rewrite Happ. }
  split; [by apply lookup_field_missing |].
  split; [by apply Hdraw |].
  intros arg more Harg.
  change ("show " +:+ arg)
    with (String "s" (String "h" (String "o" (String "w" (String " " arg))))).
  simpl. unfold command_turn. simpl.
  assert (String.prefix "" arg = true) as -> by (by destruct arg).
  rewrite Harg.
  change (draw_fields _ _ _ _ _ _ _ _ _ _ ?names) with (draw (Some names)).
  rewrite Hdraw by reflexivity.
  unfold written. simpl. by rewrite <- app_assoc.
Qed.

End ConsoleFacts.


(** ** Seeding, then scattering back *)

Section RoundTripFacts.
Import Math Field Seeding.

Variable rand : rng.
Variable other_attr : PointCloud -> string -> option pyobj.
Variable scatter : pyobj -> pyobj -> Values -> pyobj -> pyobj -> Py.result (ndarray Q).

(** C7 (round trip), as the code has it.  On the two-cell grid whose
    second cell is occupied, seeding with one particle per cell at the
    centers gives the point 3/2.  Line 40 sends it to the index 2, which
    is no cell of the grid (the cells are 0 and 1), and the scatter raises:
    the occupancy pattern [0; 1] is not returned. *)
Theorem round_trip_raises :
  let seeded := _distribute_points rand Examples.second_cell_occupied 1 "center" 0 in
  let cloud := Examples.cloud_of [[3 # 2]] true in
  let result :=
    sample_at Examples.affine_global_to_local other_attr scatter cloud
      (AtGridCell Examples.two_cells) [] in
  seeded = (inr [[[3 # 2]]], 0%nat)
  /\ closest_index Examples.affine_global_to_local cloud
       (bounds Examples.two_cells) (resolution Examples.two_cells) = [[2%Z]]
  /\ (result = Py.raise (Py.AttributeError "sample_points")
      \/ result = Py.raise (Py.NameError "valid_indices"))
  /\ ~ Py.succeeds result.
Proof.
  split; [reflexivity |]. split; [reflexivity |].
  simpl.
  destruct (grid_scatter_raises Examples.affine_global_to_local other_attr scatter
              (Examples.cloud_of [[3 # 2]] true)
              {| lower := [0%Q]; upper := [2%Q] |} [2%Z]) as [H | H];
    rewrite H; (split; [auto | intros [grid Hgrid]; discriminate]).
Qed.

End RoundTripFacts.

(** ** Instances *)

Section Instances.
Import Math Field Seeding.

(** C6 as stated does not hold: when the leading dimension is not known
    statically and the two batch entries have one and two active cells,
    the call returns the points of batch 0 alone. *)
Lemma seeding_unknown_batch_truncates :
  length (active_cells (rank := 1) [Examples.on; Examples.off])
  <> length (active_cells (rank := 1) [Examples.on; Examples.on])
  /\ _distribute_points Examples.quarter (Examples.uneven false) 1 "center" 0
     = (inr [[[1 # 2]]], 0%nat)
  /\ ~ mismatch_always_fails.
Proof.
  split; [vm_compute; lia |]. split; [reflexivity |].
  intros Hclaim.
  destruct (Hclaim Examples.quarter (Examples.uneven false) 1%Z "center" 0%nat
              0%nat 1%nat [Examples.on; Examples.off] [Examples.on; Examples.on])
    as [e He]; [lia | by left | reflexivity | reflexivity | vm_compute; lia |].
  discriminate He.
Qed.

(** The theorems at the example inputs. *)

Lemma mask_new_object_witness :
  exists (h' : store) (r : ref),
    call_mask Examples.one_object 0%nat = Some (h', r)
    /\ Examples.one_object !! r = None
    /\ h' !! r = Some {| _elements := _elements (Examples.two_points true);
                         _values := Scalar 1; _extrapolation := ZERO;
                         _add_overlapping := false |}
    /\ h' !! 0%nat = Some (Examples.two_points true)
    /\ (forall r' : ref, r' <> r -> h' !! r' = Examples.one_object !! r').
Proof.
  apply (mask_new_object Examples.one_object 0%nat (Examples.two_points true)).
  reflexivity.
Defined.

Lemma seeding_count_center_witness :
  exists (r : list points_t) (pts : points_t),
    _distribute_points Examples.quarter Examples.two_by_two 2 "center" 0
    = (inr r, 0%nat)
    /\ r !! 1%nat = Some pts
    /\ Z.of_nat (length pts) = 4%Z.
Proof.
  destruct (seeding_count_center Examples.quarter Examples.two_by_two 2 1
              [[Examples.off; Examples.off]; [Examples.on; Examples.on]] 0)
    as (r & pts & Hrun & Hentry & Hlen & _).
  - lia.
  - vm_compute. lia.
  - reflexivity.
  - intros [|[|b']] t' Hb' Ht'.
    + injection Ht' as <-. reflexivity.
    + injection Ht' as <-. reflexivity.
    + discriminate Ht'.
  - change (Forall (Forall (fun i => i < 2 ^ 23)%Z) [[1; 0]; [1; 1]]%Z).
    repeat (constructor; try lia).
  - exists r, pts. split; [exact Hrun |]. split; [exact Hentry | exact Hlen].
Defined.

(** C5 as stated does not hold.  With one and two active cells in two
    batches the call raises, so no batch gets its points; when the leading
    dimension is not known statically, the second batch gets none; and at
    the index [2^23] the centre the backend computes is the index itself,
    not the index plus 0.5. *)
Lemma seeding_count_needs_equal_counts :
  _distribute_points Examples.quarter (Examples.uneven true) 1 "center" 0
  = (inl (Py.ValueError same_count_message), 0%nat)
  /\ _distribute_points Examples.quarter (Examples.uneven false) 1 "center" 0
     = (inr [[[1 # 2]]], 0%nat)
  /\ cell_centers [[8388608%Z]] = [[8388608 # 1]]
  /\ ~ center_count_always_holds.
Proof.
  split; [reflexivity |]. split; [reflexivity |]. split; [reflexivity |].
  intros Hclaim.
  destruct (Hclaim Examples.quarter (Examples.uneven true) 1%Z 0%nat
              [Examples.on; Examples.off] 0%nat) as (r & s' & pts & Hrun & _);
    [lia | reflexivity |].
  discriminate Hrun.
Qed.

Lemma seeding_mismatch_fails_witness :
  exists s', _distribute_points Examples.quarter (Examples.uneven true) 3 "uniform" 0
             = (inl (Py.ValueError same_count_message), s').
Proof.
  apply (seeding_mismatch_fails Examples.quarter (Examples.uneven true) 3 "uniform" 0
           0 1 [Examples.on; Examples.off] [Examples.on; Examples.on]);
    [reflexivity | lia | by right | reflexivity | reflexivity | vm_compute; lia].
Defined.

Lemma seeding_unknown_batch_size_witness :
  batch_size (Examples.uneven false) = 1%nat
  /\ exists entry s',
       _distribute_points Examples.quarter (Examples.uneven false) 2 "uniform" 0
       = (inr [entry], s').
Proof.
  destruct (seeding_unknown_batch_size Examples.quarter (Examples.uneven false) 2
              "uniform" 0 eq_refl) as (Hsize & _ & Hreturns & _).
  split; [exact Hsize |].
  apply (Hreturns [Examples.on; Examples.off]); [lia | by right | reflexivity].
Defined.

Lemma draw_missing_field_not_fatal_witness :
  Console.command_loop nat (fun _ => false) id id (fun _ _ _ => ["#"]) unit id id id
    Examples.two_fields Examples.two_fields_str unit (fun _ _ => ["density"])
    (80, 20)%Z ["show density, pressure"; "help"] Examples.fresh_console
  = Console.command_loop nat (fun _ => false) id id (fun _ _ _ => ["#"]) unit id id id
      Examples.two_fields Examples.two_fields_str unit (fun _ _ => ["density"])
      (80, 20)%Z ["help"]
      (Console.written unit unit Examples.fresh_console
         ["PhiFlow>";
          Console.missing_field_message unit Examples.two_fields_str tt "pressure"]).
Proof.
  destruct (draw_missing_field_not_fatal nat (fun _ => false) id id
              (fun _ _ _ => ["#"]) unit id id id Examples.two_fields
              Examples.two_fields_str unit (fun _ _ => ["density"]) (80, 20)%Z
              Examples.fresh_console ["density"] "pressure" [])
    as (_ & _ & Hloop).
  - repeat constructor.
  - intros [H | [H | []]]; discriminate H.
  - apply (Hloop "density, pressure" ["help"]). reflexivity.
Defined.

End Instances.

(* ===================================================================== *)
(** * Further properties of the two files                                 *)
(* ===================================================================== *)

(** ** Auxiliary notions *)

Module Aux.
Import Math Seeding.

(** A loop over [xs] whose body neither reads nor writes the state: it
    appends [g x] for every [x], and stops at the first exception. *)
Fixpoint collect {A E} (g : A -> Py.result E) (xs : list A) (acc : list E)
  : Py.result (list E) :=
  match xs with
  | [] => inr acc
  | x :: rest =>
      match g x with
      | inl e => inl e
      | inr v => collect g rest (acc ++ [v])
      end
  end.

(** What lines 64-73 compute for [batch] with 'center'. *)
Definition center_entry (d : Density) (k : Z) (batch : nat) : Py.result points_t :=
  match batches d !! batch with
  | Some t => concat (repeat (cell_centers (active_cells t)) (Z.to_nat k))
  | None => Py.raise Py.IndexError
  end.

(** The point [p] lies in the closed cell with index vector [cell]: on
    every axis, [index <= coordinate <= index + 1].  The upper face is
    part of it: a float32 sum [index + u] with [u < 1] can round up to
    [index + 1]. *)
Definition in_closed_cell (cell : list Z) (p : list Q) : Prop :=
  Forall2 (fun i x => inject_Z i <= x /\ x <= inject_Z i + 1)%Q cell p.

(** The numbers [random_uniform] hands back for the shape of [indices],
    from draw number [s] on. *)
Definition offsets_at (rand : rng) (indices : points_t) (s : nat) : points_t :=
  tabulate (fst (shape indices))
    (fun i => tabulate (snd (shape indices))
                (fun j => rand (s + i * snd (shape indices) + j)%nat)).

(** The number of draws one 'uniform' turn takes. *)
Definition draws_per_turn (indices : points_t) : nat :=
  (fst (shape indices) * snd (shape indices))%nat.

End Aux.

(** ** Particle seeding, continued *)

Section SeedingMore.
Import Math Seeding Aux.

Variable rand : rng.

Lemma for_in_stateless {A E : Type} (f : A -> Py.io nat E) (g : A -> Py.result E)
    (xs : list A) (acc : list E) (s : nat) :
  (forall x s, f x s = (g x, s)) ->
  Py.for_in xs (fun acc x => run e <- f x; Py.io_ret (acc ++ [e])) acc s
  = (collect g xs acc, s).
Proof.
  intros Hf. revert acc. induction xs as [|x xs IH]; intros acc; simpl.
  - reflexivity.
  - unfold Py.io_bind at 1. unfold Py.io_bind at 1. rewrite Hf.
    destruct (g x) as [e | v]; [reflexivity |].
    unfold Py.io_ret at 1. apply IH.
Qed.

(** With 'center' a batch is computed without the random source. *)
Lemma batch_points_center_any (d : Density) (k : Z) (b : nat) (s : nat) :
  batch_points rand d k "center" b s = (center_entry d k b, s).
Proof.
  unfold batch_points, center_entry, getitem.
  destruct (batches d !! b) as [t |]; [| reflexivity].
  unfold Py.io_bind at 1. unfold Py.lift at 1, Py.ret.
  unfold Py.io_bind. simpl String.eqb. cbv iota.
  rewrite for_in_append_const, range_length. reflexivity.
Qed.

Lemma distribute_points_center (d : Density) (k : Z) (s : nat) :
  _distribute_points rand d k "center" s
  = (match collect (center_entry d k) (seq 0 (batch_size d)) [] with
     | inl e => inl e
     | inr index_array => Py.reraise_ValueError (stack index_array) same_count_message
     end, s).
Proof.
  rewrite distribute_points_unfold by (by left).
  rewrite (for_in_stateless _ (center_entry d k)) by apply batch_points_center_any.
  by destruct (collect _ _ _).
Qed.

(** X1.  A distribution other than 'center' and 'uniform' is refused by
    the assertion of line 59 before the density is looked at: the call
    raises [AssertionError] and draws no random number. *)
Theorem seeding_rejects_other_distribution (d : Density) (k : Z)
    (distribution : string) (s : nat) :
  distribution <> "center" -> distribution <> "uniform" ->
  _distribute_points rand d k distribution s = (inl Py.AssertionError, s).
Proof.
  intros Hc Hu. unfold _distribute_points, Py.io_bind.
  rewrite bool_decide_eq_false_2; [reflexivity |].
  intros Hin. apply list_elem_of_In in Hin. simpl in Hin.
  destruct Hin as [H | [H | []]]; congruence.
Qed.

End SeedingMore.

Section SeedingCenter.
Import Math Seeding Aux.

(** X2.  With 'center' the call does not depend on the random source and
    does not advance it: two random sources, at any draw numbers, give the
    same result or the same exception. *)
Theorem seeding_center_ignores_random_source (rand rand' : rng) (d : Density) (k : Z)
    (s s' : nat) :
  fst (_distribute_points rand d k "center" s)
  = fst (_distribute_points rand' d k "center" s')
  /\ snd (_distribute_points rand d k "center" s) = s.
Proof.
  rewrite !distribute_points_center. split; reflexivity.
Qed.

End SeedingCenter.

Section SeedingUniform.
Import Math Seeding Aux.

Variable rand : rng.

Lemma tabulate_lookup {A} (n : nat) (f : nat -> A) (i : nat) :
  (i < n)%nat -> tabulate n f !! i = Some (f i).
Proof.
  intros Hi. unfold tabulate. rewrite map_lookup, lookup_seq_lt by exact Hi.
  reflexivity.
Qed.

Lemma random_uniform_offsets (indices : points_t) (s : nat) :
  random_uniform rand (shape indices) s
  = (inr (offsets_at rand indices s), (s + draws_per_turn indices)%nat).
Proof.
  unfold random_uniform, offsets_at, draws_per_turn.
  by destruct (shape indices).
Qed.

(** The 'uniform' loop of lines 68-72: one block of shifted indices per
    turn, each drawn where the previous one stopped. *)
Lemma for_in_uniform_blocks (indices : points_t) (xs : list nat)
    (temp : list points_t) (s : nat) :
  Py.for_in xs (fun temp _ =>
      run offsets <- random_uniform rand (shape indices);
      Py.io_ret (temp ++ [add_tensor indices offsets])) temp s
  = (inr (temp ++ List.map
            (fun j => add_tensor indices
                        (offsets_at rand indices (s + j * draws_per_turn indices)))
            (seq 0 (length xs))),
     (s + length xs * draws_per_turn indices)%nat).
Proof.
  revert temp s. induction xs as [|x xs IH]; intros temp s; simpl.
  - rewrite app_nil_r. unfold Py.io_ret. f_equal. lia.
  - unfold Py.io_bind at 1. unfold Py.io_bind at 1.
    rewrite random_uniform_offsets. unfold Py.io_ret at 1.
    rewrite IH, <- app_assoc. simpl. f_equal; [| lia].
    f_equal. f_equal. f_equal; [by rewrite Nat.add_0_r |].
    rewrite <- seq_shift, List.map_map.
    apply List.map_ext. intros j. do 2 f_equal. lia.
Qed.

Lemma batch_points_uniform (d : Density) (k : Z) (b : nat)
    (t : nd (Q * list Q) (spatial_rank d)) (s : nat) :
  (0 < k)%Z -> batches d !! b = Some t ->
  let indices := to_float (active_cells t) in
  batch_points rand d k "uniform" b s
  = (inr (List.concat
            (List.map (fun j => add_tensor indices
                        (offsets_at rand indices (s + j * draws_per_turn indices)))
               (seq 0 (Z.to_nat k)))),
     (s + Z.to_nat k * draws_per_turn indices)%nat).
Proof.
  intros Hk Hb indices. unfold batch_points, getitem. rewrite Hb.
  unfold Py.io_bind at 1. unfold Py.lift at 1, Py.ret.
  unfold Py.io_bind at 1. simpl String.eqb. cbv iota.
  fold (active_cells t). fold indices.
  rewrite for_in_uniform_blocks, range_length. simpl app.
  destruct (Z.to_nat k) as [|n] eqn:Hn; [lia |].
  reflexivity.
Qed.

(** Adding offsets to an index tensor, row by row: every coordinate is
    the float32 sum of its index, as a float32, and an offset. *)
Lemma add_tensor_rows (U : Q -> Prop) (cells : indices_t) (offs : points_t) :
  Forall2 (fun c o => length o = length c /\ Forall U o) cells offs ->
  Forall2 (Forall2 (fun i x => exists u, U u /\ x = fl (fl (inject_Z i) + u)))
    cells (add_tensor (to_float cells) offs).
Proof.
  induction 1 as [|c o cells offs [Hlen HU] _ IH]; simpl; constructor; [| exact IH].
  clear IH. revert o Hlen HU. induction c as [|i c IHc]; intros [|u o] Hlen HU;
    simpl in *; try discriminate; constructor.
  - exists u. split; [by inversion HU | reflexivity].
  - apply IHc; [lia | by inversion HU].
Qed.

(** The offsets drawn for an index tensor with [rank] columns have its
    shape, and hold drawn numbers only. *)
Lemma offsets_at_rows (U : Q -> Prop) (cells : indices_t) (rank s : nat) :
  (forall n, U (rand n)) ->
  Forall (fun c => length c = rank) cells ->
  Forall2 (fun c o => length o = length c /\ Forall U o)
    cells (offsets_at rand (to_float cells) s).
Proof.
  intros HU Hrank.
  assert (fst (shape (to_float cells)) = length cells) as Hrows.
  { unfold shape, to_float. simpl. by rewrite length_map. }
  assert (cells <> [] -> snd (shape (to_float cells)) = rank) as Hcols.
  { destruct cells as [|c cells]; [done |]. intros _. simpl.
    rewrite length_map. by inversion Hrank. }
  apply Forall2_same_length_lookup_2.
  - unfold offsets_at. by rewrite tabulate_length.
  - intros i c o Hc Ho. unfold offsets_at in Ho.
    rewrite Hrows, tabulate_lookup in Ho by (by eapply lookup_lt_Some).
    injection Ho as <-. rewrite tabulate_length.
    rewrite List.Forall_forall in Hrank. split.
    + change (snd (shape (to_float cells)) = length c).
      rewrite Hcols by (intros ->; discriminate).
      symmetry. apply Hrank. by eapply list_elem_of_In, list_elem_of_lookup_2.
    + apply List.Forall_forall. intros x Hx. unfold tabulate in Hx.
      apply in_map_iff in Hx as (j & <- & _). apply HU.
Qed.

Lemma draws_per_turn_cells (cells : indices_t) (rank : nat) :
  Forall (fun c => length c = rank) cells ->
  draws_per_turn (to_float cells) = (length cells * rank)%nat.
Proof.
  intros Hrank. unfold draws_per_turn, shape, to_float. simpl.
  rewrite length_map. destruct cells as [|c cells]; simpl; [reflexivity |].
  rewrite length_map. inversion Hrank; subst. reflexivity.
Qed.

Lemma Forall2_with_left {A B} (P : A -> Prop) (R S : A -> B -> Prop)
    (l : list A) (k : list B) :
  Forall P l -> Forall2 R l k -> (forall a b, P a -> R a b -> S a b) ->
  Forall2 S l k.
Proof.
  intros HP HR Himp. induction HR as [|a b l k Hab _ IH]; constructor.
  - apply Himp; [by inversion HP | exact Hab].
  - apply IH. by inversion HP.
Qed.

(** An index below 2^23 shifted by an offset in [0,1), in float32, stays
    in the closed cell of the index. *)
Lemma shifted_index_in_closed_cell (c : list Z) (p : list Q) :
  Forall (fun i => 0 <= i < 2 ^ 23)%Z c ->
  Forall2 (fun i x => exists u, (0 <= u /\ u < 1)%Q /\ x = fl (fl (inject_Z i) + u)) c p ->
  in_closed_cell c p.
Proof.
  intros Hc Hcp. unfold in_closed_cell.
  apply (Forall2_with_left _ _ _ _ _ Hc Hcp).
  intros i x Hi (u & [Hlo Hhi] & ->).
  rewrite fl_integer by lia. by apply fl_between.
Qed.

(** X3.  With 'uniform', a random source that hands out numbers in [0,1),
    a positive [particles_per_cell] = k and active indices below 2^23,
    the points of a batch come in k blocks; every block has one point per
    active cell, in the order of the active cells, and each point lies in
    the closed cell of its index: on every axis
    [index <= coordinate <= index + 1], sums being rounded to float32.
    The batch takes k * A * rank draws. *)
Theorem seeding_uniform_points_in_cells (d : Density) (k : Z) (b : nat)
    (t : nd (Q * list Q) (spatial_rank d)) (s : nat) :
  (forall n, 0 <= rand n /\ rand n < 1)%Q ->
  (0 < k)%Z -> batches d !! b = Some t ->
  Forall (Forall (fun i => i < 2 ^ 23)%Z) (active_cells t) ->
  exists blocks : list points_t,
    batch_points rand d k "uniform" b s
    = (inr (List.concat blocks),
       (s + Z.to_nat k * (length (active_cells t) * spatial_rank d))%nat)
    /\ length blocks = Z.to_nat k
    /\ Forall (fun block => Forall2 in_closed_cell (active_cells t) block) blocks.
Proof.
  intros Hunit Hk Hb Hsmall.
  pose proof (active_cells_row_length t) as Hrank.
  assert (Forall (Forall (fun i => 0 <= i < 2 ^ 23)%Z) (active_cells t)) as Hrange.
  { pose proof (where_nonneg _ (greater_than_zero (nd_map fst _ t))) as Hpos.
    fold (active_cells t) in Hpos.
    revert Hpos Hsmall. generalize (active_cells t). intros cells Hpos.
    induction Hpos as [|c cells Hc _ IH]; intros Hsmall; constructor.
    - inversion Hsmall as [|? ? Hc' _]; subst. clear -Hc Hc'.
      induction Hc as [|i c Hi _ IHc]; constructor.
      + inversion Hc'; subst. lia.
      + apply IHc. by inversion Hc'.
    - apply IH. by inversion Hsmall. }
  eexists. split; [| split].
  - rewrite (batch_points_uniform d k b t s Hk Hb).
    rewrite (draws_per_turn_cells _ _ Hrank). reflexivity.
  - by rewrite length_map, length_seq.
  - apply List.Forall_forall. intros block Hblock.
    apply in_map_iff in Hblock as (j & <- & _).
    eapply Forall2_with_left; [exact Hrange | |].
    + apply add_tensor_rows with (U := fun u => (0 <= u /\ u < 1)%Q).
      by apply offsets_at_rows with (rank := spatial_rank d).
    + intros c p Hc Hcp. by apply shifted_index_in_closed_cell.
Qed.

End SeedingUniform.

Section SeedingShape.
Import Math Seeding Aux.

Variable rand : rng.

Lemma row_shape_concat (blocks : list points_t) (rank a : nat) :
  Forall (fun block => row_shape block = repeat rank a) blocks ->
  row_shape (List.concat blocks) = repeat rank (length blocks * a).
Proof.
  induction 1 as [|block blocks Hb _ IH]; simpl; [reflexivity |].
  unfold row_shape in *. by rewrite List.map_app, Hb, IH, repeat_app.
Qed.

Lemma row_shape_repeat_inv (e : points_t) (rank m : nat) :
  row_shape e = repeat rank m ->
  length e = m /\ Forall (fun row => length row = rank) e.
Proof.
  intros H. split.
  - apply (f_equal (@length nat)) in H. unfold row_shape in H.
    by rewrite length_map, repeat_length in H.
  - revert m H. induction e as [|row e IH]; intros [|m] H; simpl in *;
      try discriminate; constructor.
    + by injection H.
    + apply (IH m). by injection H.
Qed.

(** With either distribution the tensor of a batch has [k * A] rows of
    [rank] coordinates. *)
Lemma batch_points_row_shape (d : Density) (k : Z) (distribution : string) (b : nat)
    (t : nd (Q * list Q) (spatial_rank d)) (s : nat) :
  (0 < k)%Z -> distribution = "center" \/ distribution = "uniform" ->
  batches d !! b = Some t ->
  exists e s',
    batch_points rand d k distribution b s = (inr e, s')
    /\ row_shape e
       = repeat (spatial_rank d) (Z.to_nat k * length (active_cells t)).
Proof.
  intros Hk [-> | ->] Hb.
  - eexists _, s. split; [by apply batch_points_center |].
    apply cell_centers_row_shape.
  - eexists _, _. split; [by apply batch_points_uniform |].
    pose proof (active_cells_row_length t) as Hrank.
    rewrite row_shape_concat with (rank := spatial_rank d)
                                  (a := length (active_cells t)).
    + by rewrite length_map, length_seq.
    + apply List.Forall_forall. intros block Hblock.
      apply in_map_iff in Hblock as (j & <- & _).
      pose proof (add_tensor_rows (fun _ => True) (active_cells t) _
                    (offsets_at_rows rand (fun _ => True) (active_cells t)
                       (spatial_rank d)
                       (s + j * draws_per_turn (to_float (active_cells t)))
                       (fun _ => I) Hrank)) as Hrows.
      revert Hrows Hrank. generalize (active_cells t). intros cells.
      match goal with |- Forall2 _ cells ?blk -> _ => generalize blk end.
      intros block Hrows. induction Hrows as [|c p cells block Hcp _ IH];
        intros Hrank; simpl; [reflexivity |].
      inversion Hrank as [|? ? Hc Hcells]; subst.
      unfold row_shape in *. simpl. rewrite IH by exact Hcells.
      f_equal. apply Forall2_length in Hcp. congruence.
Qed.

(** A call to [stack] that got through handed back tensors with equal
    numbers of rows. *)
Lemma stack_success_lengths (ts r : list points_t) (msg : string) :
  Py.reraise_ValueError (stack ts) msg = inr r ->
  forall i j a b, ts !! i = Some a -> ts !! j = Some b -> length a = length b.
Proof.
  intros Hstack i j a b Hi Hj.
  destruct (decide (length a = length b)) as [Heq | Hne]; [exact Heq |].
  destruct (stack_length_mismatch ts i j a b Hi Hj Hne) as [m Hm].
  rewrite Hm in Hstack. discriminate.
Qed.

(** X4.  When the static shape knows the leading dimension, there is at
    least one batch, [particles_per_cell] = k is positive and the
    distribution is accepted, the call returns exactly when all batches
    have the same number of active cells.  What it returns has the shape
    the docstring gives, (batch_size, point_count, rank): one entry per
    batch, each with k * A rows of [rank] coordinates. *)
Theorem seeding_returns_iff_equal_counts (d : Density) (k : Z) (distribution : string)
    (s : nat) :
  static_batch_known d = true -> batches d <> [] ->
  (0 < k)%Z -> distribution = "center" \/ distribution = "uniform" ->
  ((exists r s', _distribute_points rand d k distribution s = (inr r, s'))
   <-> (forall i j ti tj, batches d !! i = Some ti -> batches d !! j = Some tj ->
          length (active_cells ti) = length (active_cells tj)))
  /\ (forall r s', _distribute_points rand d k distribution s = (inr r, s') ->
        length r = length (batches d)
        /\ forall b t, batches d !! b = Some t ->
             exists e, r !! b = Some e
               /\ length e = (Z.to_nat k * length (active_cells t))%nat
               /\ Forall (fun row => length row = spatial_rank d) e).
Proof.
  intros Hknown Hne Hk Hdist.
  assert (batch_size d = length (batches d)) as Hsize.
  { unfold batch_size, staticshape0. by rewrite Hknown. }
  assert (forall r s', _distribute_points rand d k distribution s = (inr r, s') ->
            (forall i j a b, r !! i = Some a -> r !! j = Some b -> length a = length b)
            /\ length r = length (batches d)
            /\ forall b t, batches d !! b = Some t ->
                 exists e, r !! b = Some e
                   /\ length e = (Z.to_nat k * length (active_cells t))%nat
                   /\ Forall (fun row => length row = spatial_rank d) e) as Hshape.
  { intros r s'. rewrite distribute_points_unfold by exact Hdist.
    destruct (Py.for_in _ _ _ _) as [[e | index_array] s1] eqn:Hloop; [discriminate |].
    intros [= Hstack <-].
    pose proof (stack_success_lengths _ _ _ Hstack) as Hlens.
    apply stack_returns_argument in Hstack as ->.
    apply for_in_append_inv in Hloop as (es & -> & HF). simpl in *.
    split; [exact Hlens |]. split.
    - apply Forall2_length in HF. by rewrite length_seq, Hsize in HF.
    - intros b t Hb.
      destruct (Forall2_lookup_l _ _ _ b b HF) as (e & He & s1' & s2 & Hrun).
      { apply lookup_seq_lt. rewrite Hsize. by eapply lookup_lt_Some. }
      destruct (batch_points_row_shape d k distribution b t s1' Hk Hdist Hb)
        as (e' & s2' & Hrun' & Hrows).
      rewrite Hrun in Hrun'. injection Hrun' as -> _.
      exists e'. split; [exact He |]. by apply row_shape_repeat_inv. }
  split; [split |].
  - intros (r & s' & Hrun) i j ti tj Hi Hj.
    destruct (Hshape r s' Hrun) as (Hlens & _ & Hentries).
    destruct (Hentries i ti Hi) as (ei & Hei & Hleni & _).
    destruct (Hentries j tj Hj) as (ej & Hej & Hlenj & _).
    pose proof (Hlens i j ei ej Hei Hej). nia.
  - intros Hsame.
    destruct (batches d) as [|t0 rest] eqn:Hbatches; [done |].
    destruct (for_in_append_returns
                (fun batch => batch_points rand d k distribution batch)
                (fun _ e => row_shape e
                            = repeat (spatial_rank d)
                                (Z.to_nat k * length (active_cells t0)))
                (seq 0 (batch_size d)) [] s) as (es & s' & Hloop & HF).
    { intros b Hb s0. apply in_seq in Hb. rewrite Hsize in Hb.
      destruct (lookup_lt_is_Some_2 (t0 :: rest) b) as [t Ht]; [lia |].
      destruct (batch_points_row_shape d k distribution b t s0 Hk Hdist)
        as (e & s1 & Hrun & Hrows); [by rewrite Hbatches |].
      exists e, s1. split; [exact Hrun |].
      by rewrite Hrows, (Hsame b 0%nat t t0 Ht eq_refl). }
    exists es, s'. rewrite distribute_points_unfold by exact Hdist.
    rewrite Hloop. simpl app.
    destruct es as [|e es].
    { apply Forall2_length in HF. rewrite length_seq, Hsize in HF. discriminate. }
    rewrite stack_same_shape; [reflexivity |].
    assert (Forall (fun e' => row_shape e'
                              = repeat (spatial_rank d)
                                  (Z.to_nat k * length (active_cells t0)))
              (e :: es)) as Hall.
    { clear -HF. induction HF; constructor; auto. }
    inversion Hall as [|? ? He Hes]; subst.
    eapply Forall_impl; [exact Hes |]. intros e' He'. simpl in He'. congruence.
  - intros r s' Hrun. destruct (Hshape r s' Hrun) as (_ & Hlen & Hentries).
    split; [exact Hlen | exact Hentries].
Qed.

End SeedingShape.

(** ** The point cloud, continued *)

Section PointCloudMore.
Import Math Field.

Variable global_to_local : Box -> list Q -> list Q.
Variable other_attr : PointCloud -> string -> option pyobj.
Variable scatter : pyobj -> pyobj -> Values -> pyobj -> pyobj -> Py.result (ndarray Q).

(** X5.  [sample_at] returns for no cloud and no target: it raises
    [NotImplementedError] when the target is no GridCell, and otherwise
    the exception line 41 meets first. *)
Theorem sample_at_always_raises (self : PointCloud) (target : Support)
    (reduce_channels : list string) :
  sample_at global_to_local other_attr scatter self target reduce_channels
  = Py.raise (if isinstance_GridCell target
              then match other_attr self "sample_points" with
                   | Some _ => Py.NameError "valid_indices"
                   | None => Py.AttributeError "sample_points"
                   end
              else Py.NotImplementedError).
Proof.
  destruct target as [cells | b | g | t]; simpl; try reflexivity.
  unfold _grid_scatter, getattr.
  by destruct (other_attr self "sample_points").
Qed.

End PointCloudMore.

Section MaskMore.
Import Field.

(** X6.  Masking the mask of an object: both calls build a new object,
    at different references, neither of them the original; the two masks
    are equal, and the original is still in the store, unchanged. *)
Theorem mask_of_mask (h : store) (self : ref) (obj : PointCloud) :
  h !! self = Some obj ->
  exists (h1 h2 : store) (r1 r2 : ref),
    call_mask h self = Some (h1, r1)
    /\ call_mask h1 r1 = Some (h2, r2)
    /\ r1 <> self /\ r2 <> self /\ r2 <> r1
    /\ h2 !! r1 = Some (mask obj)
    /\ h2 !! r2 = Some (mask obj)
    /\ h2 !! self = Some obj.
Proof.
  intros Hself. unfold ref in *.
  set (r1 := fresh (dom h)).
  assert (h !! r1 = None) as Hr1 by apply not_elem_of_dom, is_fresh.
  assert (r1 <> self) as Hne1.
  { intros Heq. rewrite Heq, Hself in Hr1. discriminate. }
  set (h1 := <[r1 := mask obj]> h).
  assert (h1 !! r1 = Some (mask obj)) as Hh1 by apply lookup_insert_eq.
  set (r2 := fresh (dom h1)).
  assert (h1 !! r2 = None) as Hr2 by apply not_elem_of_dom, is_fresh.
  assert (r2 <> r1) as Hne21.
  { intros Heq. rewrite Heq, Hh1 in Hr2. discriminate. }
  assert (r2 <> self) as Hne2.
  { intros Heq. rewrite Heq in Hr2. unfold h1 in Hr2.
    rewrite lookup_insert_ne, Hself in Hr2 by exact Hne1. discriminate. }
  exists h1, (<[r2 := mask obj]> h1), r1, r2.
  split; [unfold call_mask, new; unfold ref; by rewrite Hself |].
  split; [unfold call_mask, new; unfold ref; by rewrite Hh1 |].
  repeat split; try done.
  - by rewrite lookup_insert_ne.
  - by rewrite lookup_insert_eq.
  - rewrite lookup_insert_ne by done. unfold h1.
    by rewrite lookup_insert_ne.
Qed.

End MaskMore.

(** ** The console, continued *)

Section ConsoleMore.
Import Console.

Variable FieldObj : Type.
Variable isinstance_StaggeredGrid : FieldObj -> bool.
Variable at_centers : FieldObj -> FieldObj.
Variable vec_squared : FieldObj -> FieldObj.
Variable heatmap : FieldObj -> Z -> Z -> list string.
Variable App : Type.
Variable app_step app_play app_pause : App -> App.
Variable registry : App -> list (string * FieldObj).
Variable str_fieldnames : App -> string.
Variable Config : Type.
Variable ordered_field_names : App -> Config -> list string.
Variable terminal_size : Z * Z.

Abbreviation World := (World App Config).
Abbreviation written := (written App Config).
Abbreviation missing_field_message := (missing_field_message App str_fieldnames).
Abbreviation get_field := (get_field FieldObj App registry).
Abbreviation draw_lookup := (draw_lookup FieldObj App registry str_fieldnames Config).
Abbreviation draw_plot := (draw_plot FieldObj isinstance_StaggeredGrid at_centers
                    vec_squared heatmap App Config terminal_size).
Abbreviation plot_lines := (plot_lines FieldObj isinstance_StaggeredGrid at_centers
                    vec_squared heatmap terminal_size).
Abbreviation draw_fields := (draw_fields FieldObj isinstance_StaggeredGrid at_centers
                    vec_squared heatmap App registry str_fieldnames Config
                    terminal_size).
Abbreviation draw := (draw FieldObj isinstance_StaggeredGrid at_centers vec_squared
                    heatmap App registry str_fieldnames Config ordered_field_names
                    terminal_size).
Abbreviation command_turn := (command_turn FieldObj isinstance_StaggeredGrid at_centers
                    vec_squared heatmap App app_step app_play app_pause registry
                    str_fieldnames Config ordered_field_names terminal_size).
Abbreviation command_loop := (command_loop FieldObj isinstance_StaggeredGrid at_centers
                    vec_squared heatmap App app_step app_play app_pause registry
                    str_fieldnames Config ordered_field_names terminal_size).
Abbreviation apply_command := (apply_command App app_step app_play app_pause).

Lemma written_nil (w : World) : written w [] = w.
Proof. destruct w. unfold Console.written. simpl. by rewrite app_nil_r. Qed.

Lemma written_written (w : World) (a b : list string) :
  written (written w a) b = written w (a ++ b).
Proof. unfold Console.written. simpl. by rewrite app_assoc. Qed.

(** The registry lookup raises nothing but [KeyError]. *)
Lemma lookup_field_cases (fields : list (string * FieldObj)) (name : string) :
  (exists v, lookup_field FieldObj fields name = inr v)
  \/ lookup_field FieldObj fields name = inl (Py.KeyError name).
Proof.
  induction fields as [|[n f] fields IH]; simpl; [by right |].
  destruct (String.eqb n name); [left; by exists f | exact IH].
Qed.

Lemma draw_lookup_cons (n : string) (names : list string) (values : list FieldObj)
    (w : World) :
  draw_lookup (n :: names) values w
  = match lookup_field FieldObj (registry (app _ _ w)) n with
    | inr v => draw_lookup names (values ++ [v]) w
    | inl (Py.KeyError _) =>
        (inr None, written w [missing_field_message (app _ _ w) n])
    | inl e => (inl e, w)
    end.
Proof.
  simpl. unfold Py.io_bind at 1. unfold read_world at 1, Console.get_field.
  destruct (lookup_field FieldObj (registry (app _ _ w)) n) as [[] |]; reflexivity.
Qed.

(** When every name is in the registry the loop of lines 62-67 collects
    the fields in order and writes nothing. *)
Lemma draw_lookup_found (names : list string) (found acc : list FieldObj) (w : World) :
  Forall2 (fun n v => get_field (app _ _ w) n = inr v) names found ->
  draw_lookup names acc w = (inr (Some (acc ++ found)), w).
Proof.
  intros HF. revert acc. induction HF as [|n v names found Hv _ IH]; intros acc.
  - by rewrite app_nil_r.
  - rewrite draw_lookup_cons. unfold Console.get_field in Hv. rewrite Hv.
    rewrite IH. by rewrite <- app_assoc.
Qed.

(** The loop of lines 62-67 either finds every name, and writes nothing,
    or stops at a missing name with one message. *)
Lemma draw_lookup_cases (names : list string) (values : list FieldObj) (w : World) :
  (exists found, draw_lookup names values w = (inr (Some (values ++ found)), w)
                 /\ Forall2 (fun n v => get_field (app _ _ w) n = inr v) names found)
  \/ (exists n, In n names
                /\ draw_lookup names values w
                   = (inr None, written w [missing_field_message (app _ _ w) n])).
Proof.
  revert values. induction names as [|n names IH]; intros values.
  - left. exists []. rewrite app_nil_r. split; [reflexivity | constructor].
  - rewrite draw_lookup_cons.
    destruct (lookup_field_cases (registry (app _ _ w)) n) as [[v Hv] | Hmissing].
    + rewrite Hv. destruct (IH (values ++ [v])) as [(found & Hrun & HF) | (m & Hm & Hrun)].
      * left. exists (v :: found). rewrite Hrun, <- app_assoc.
        split; [reflexivity |]. constructor; [exact Hv | exact HF].
      * right. exists m. split; [by right | exact Hrun].
    + rewrite Hmissing. right. exists n. split; [by left | reflexivity].
Qed.

Lemma draw_plot_cases (values : list FieldObj) (w : World) :
  values <> [] ->
  draw_plot values w
  = (inr tt, written w [join_lines (plot_lines values) +:+ newline]).
Proof.
  intros Hne. unfold Console.draw_plot, Console.plot_lines.
  destruct terminal_size as [cols rows].
  destruct values as [|v values]; [done |]. reflexivity.
Qed.

Lemma zip_with_lines_bound (lines plt : list string) (n : nat) :
  (length lines <= n)%nat ->
  (length (Math.zip_with String.append lines plt) <= n)%nat.
Proof. rewrite zip_with_length. lia. Qed.

(** However many lines [heatmap] returns, the plot has at most
    [rows - 1] lines. *)
Lemma plot_lines_bound (values : list FieldObj) :
  (length (plot_lines values) <= Z.to_nat (snd terminal_size - 1))%nat.
Proof.
  unfold Console.plot_lines. destruct terminal_size as [cols rows]. simpl snd.
  generalize (cols / Z.of_nat (length values))%Z. intros width.
  assert (length (repeat EmptyString (Z.to_nat (rows - 1)))
          <= Z.to_nat (rows - 1))%nat as Hinit by (rewrite repeat_length; lia).
  revert Hinit. generalize (repeat EmptyString (Z.to_nat (rows - 1))).
  induction values as [|v values IH]; intros lines Hlines; simpl; [exact Hlines |].
  apply IH. by apply zip_with_lines_bound.
Qed.

Lemma draw_fields_nonempty (names : list string) (w : World) :
  names <> [] ->
  exists text, draw_fields names w = (inr tt, written w [text]).
Proof.
  intros Hne. unfold Console.draw_fields, Py.io_bind.
  destruct (draw_lookup_cases names [] w) as [(found & -> & HF) | (n & _ & ->)].
  - eexists. apply draw_plot_cases.
    intros Hnil. simpl in Hnil. subst found.
    apply Forall2_length in HF. destruct names; [done | discriminate].
  - by eexists.
Qed.

Lemma draw_writes_once_aux (names : option (list string)) (w : World) :
  names <> Some [] ->
  exists text, draw names w = (inr tt, written w [text]).
Proof.
  destruct names as [[|n names] |]; intros Hne.
  - done.
  - by apply draw_fields_nonempty.
  - unfold Console.draw, Py.io_bind, read_world.
    destruct (ordered_field_names (app _ _ w) (config _ _ w)) as [|a shown] eqn:Hshown.
    + by eexists.
    + simpl Nat.eqb. cbv iota. apply draw_fields_nonempty.
      destruct (2 <? length (a :: shown))%nat; discriminate.
Qed.

(** X7.  [draw] raises in one case only: called with the empty list of
    names it divides by zero on line 69, having written nothing.  In every
    other case it returns after exactly one write (the plot, the message
    for a missing field, or "Nothing to show."), and leaves the
    application and the configuration as they were. *)
Theorem draw_writes_once (names : option (list string)) (w : World) :
  (names = Some [] /\ draw names w = (inl Py.ZeroDivisionError, w))
  \/ (names <> Some []
      /\ exists text, draw names w = (inr tt, written w [text])).
Proof.
  destruct names as [[|n names] |].
  - left. split; [reflexivity |]. unfold Console.draw, Console.draw_fields, Py.io_bind.
    simpl. unfold Console.draw_plot. by destruct terminal_size.
  - right. split; [discriminate |]. by apply draw_writes_once_aux.
  - right. split; [discriminate |]. by apply draw_writes_once_aux.
Qed.

(** X8.  When every requested name is in the registry, and there is at
    least one, [draw] writes the plot of the fields found, in the order
    asked for, and returns; the plot has at most [rows - 1] lines,
    whatever [heatmap] gives. *)
Theorem draw_plots_found_fields (names : list string) (values : list FieldObj)
    (w : World) :
  names <> [] ->
  Forall2 (fun n v => get_field (app _ _ w) n = inr v) names values ->
  draw (Some names) w
  = (inr tt, written w [join_lines (plot_lines values) +:+ newline])
  /\ (length (plot_lines values) <= Z.to_nat (snd terminal_size - 1))%nat.
Proof.
  intros Hne HF. split; [| apply plot_lines_bound].
  unfold Console.draw, Console.draw_fields, Py.io_bind.
  rewrite (draw_lookup_found names values [] w HF). simpl app.
  apply draw_plot_cases.
  intros ->. apply Forall2_length in HF. destruct names; [done | discriminate].
Qed.

(** X9.  Called without names, [draw] uses the names
    [ordered_field_names] gives: with none it writes "Nothing to show.",
    and otherwise it behaves as [draw] on the first two of them, so it
    never looks up or plots more than two fields. *)
Theorem draw_default_shows_two (w : World) :
  let shown := ordered_field_names (app _ _ w) (config _ _ w) in
  (shown = [] ->
   draw None w = (inr tt, written w ["Nothing to show." +:+ newline]))
  /\ (shown <> [] -> draw None w = draw (Some (take 2 shown)) w)
  /\ (length (take 2 shown) <= 2)%nat.
Proof.
  simpl. split; [| split].
  - intros Hshown. unfold Console.draw, Py.io_bind, read_world.
    rewrite Hshown. reflexivity.
  - intros Hshown. unfold Console.draw, Py.io_bind, read_world.
    destruct (ordered_field_names (app _ _ w) (config _ _ w))
      as [|a [|b [|c shown]]]; [done | reflexivity ..].
  - rewrite length_take. lia.
Qed.

Lemma split_comma_nonempty (s : string) : split_comma s <> [].
Proof.
  destruct s as [|c rest]; simpl; [discriminate |].
  destruct (Ascii.eqb c ","); [discriminate |].
  destruct (split_comma rest); discriminate.
Qed.

(** One turn of the loop returns; it changes the application as
    [apply_command] says, keeps the configuration and only adds to what
    was written. *)
Lemma command_turn_effect (command : string) (w : World) :
  exists texts,
    command_turn command w
    = (inr tt, {| app := apply_command command (app _ _ w);
                  config := config _ _ w;
                  stdout := stdout _ _ w ++ texts |}).
Proof.
  unfold Console.command_turn, Console.apply_command.
  destruct (String.eqb command "step") eqn:Hstep.
  { exists []. unfold update_app. by rewrite app_nil_r. }
  destruct (String.eqb command "play") eqn:Hplay.
  { exists []. unfold update_app. by rewrite app_nil_r. }
  destruct (String.eqb command "pause") eqn:Hpause.
  { exists []. unfold update_app. by rewrite app_nil_r. }
  destruct (String.eqb command "show").
  { destruct (draw_writes_once_aux None w) as [text ->]; [discriminate |].
    by exists [text]. }
  destruct (String.prefix "show " command).
  { destruct (draw_writes_once_aux
                (Some (List.map strip (split_comma (drop_chars (String.length "show ")
                                                      command)))) w) as [text ->].
    - intros [= Hnil]. apply List.map_eq_nil in Hnil.
      by apply split_comma_nonempty in Hnil.
    - by exists [text]. }
  destruct (String.eqb command "help"); by eexists [_].
Qed.

(** X10.  The command loop has one way out: it runs until standard
    input is used up and ends with the [EOFError] of [input()]; no command
    makes it raise.  By then the application has gone through the step,
    play and pause commands in the order typed, the other commands having
    left it alone; the configuration is as before, and what was written
    before is still there, followed by at least one write per prompt. *)
Theorem command_loop_ends_with_input (stdin : list string) (w : World) :
  exists texts,
    command_loop stdin w
    = (Py.EOFError,
       {| app := fold_left (fun a command => apply_command command a) stdin (app _ _ w);
          config := config _ _ w;
          stdout := stdout _ _ w ++ texts |})
    /\ (length stdin < length texts)%nat.
Proof.
  revert w. induction stdin as [|command stdin IH]; intros w.
  - exists ["PhiFlow>" +:+ ""]. split; [reflexivity | simpl; lia].
  - simpl.
    destruct (command_turn_effect command
                {| app := app _ _ w; config := config _ _ w;
                   stdout := stdout _ _ w ++ ["PhiFlow>" +:+ ""] |})
      as [turn ->].
    simpl.
    destruct (IH {| app := apply_command command (app _ _ w);
                    config := config _ _ w;
                    stdout := (stdout _ _ w ++ ["PhiFlow>" +:+ ""]) ++ turn |})
      as (rest & -> & Hlen).
    exists (("PhiFlow>" +:+ "") :: turn ++ rest). simpl. split.
    + do 2 f_equal. by rewrite <- !app_assoc.
    + rewrite length_app. lia.
Qed.

End ConsoleMore.

Section ShowCommand.
Import Console.

Definition first_not_space (s : string) : Prop :=
  match s with
  | EmptyString => True
  | String c _ => is_space c = false
  end.

Lemma lstrip_first_not_space (s : string) : first_not_space (lstrip s).
Proof.
  induction s as [|c s IH]; simpl; [exact I |].
  destruct (is_space c) eqn:Hc; [exact IH | exact Hc].
Qed.

Lemma lstrip_id (s : string) : first_not_space s -> lstrip s = s.
Proof. destruct s as [|c s]; simpl; [reflexivity |]. by intros ->. Qed.

Lemma rstrip_first_not_space (s : string) :
  first_not_space s -> first_not_space (rstrip s).
Proof.
  destruct s as [|c s]; simpl; [exact id |]. intros Hc.
  destruct (rstrip s); [rewrite Hc |]; exact Hc.
Qed.

Lemma rstrip_idempotent (s : string) : rstrip (rstrip s) = rstrip s.
Proof.
  induction s as [|c s IH]; simpl; [reflexivity |].
  destruct (rstrip s) as [|k kept] eqn:Hkept.
  - destruct (is_space c) eqn:Hc; simpl; [reflexivity | by rewrite Hc].
  - change (rstrip (String c (String k kept))) with
      (match rstrip (String k kept) with
       | EmptyString => if is_space c then EmptyString else String c EmptyString
       | kept' => String c kept'
       end).
    by rewrite IH.
Qed.

(** Stripping a stripped string changes nothing. *)
Lemma strip_idempotent (s : string) : strip (strip s) = strip s.
Proof.
  unfold strip.
  rewrite (lstrip_id (rstrip (lstrip s)))
    by apply rstrip_first_not_space, lstrip_first_not_space.
  apply rstrip_idempotent.
Qed.

Lemma lstrip_contains (c : ascii) (s : string) :
  contains_char c s = false -> contains_char c (lstrip s) = false.
Proof.
  induction s as [|c' s IH]; simpl; [done |].
  intros H. apply orb_false_elim in H as [Hc Hs].
  destruct (is_space c'); [by apply IH | simpl; by rewrite Hc, Hs].
Qed.

Lemma rstrip_contains (c : ascii) (s : string) :
  contains_char c s = false -> contains_char c (rstrip s) = false.
Proof.
  induction s as [|c' s IH]; simpl; [done |].
  intros H. apply orb_false_elim in H as [Hc Hs].
  destruct (rstrip s) as [|k kept].
  - destruct (is_space c'); simpl; [reflexivity | by rewrite Hc].
  - simpl in *. rewrite Hc. by apply IH.
Qed.

Lemma split_comma_no_comma (s : string) :
  Forall (fun piece => contains_char "," piece = false) (split_comma s).
Proof.
  induction s as [|c s IH]; simpl; [by repeat constructor |].
  destruct (Ascii.eqb c ",") eqn:Hc.
  - constructor; [reflexivity | exact IH].
  - destruct (split_comma s) as [|piece pieces]; [by repeat constructor; simpl; rewrite Hc |].
    inversion IH as [|? ? Hpiece Hpieces]; subst.
    constructor; [simpl; by rewrite Hc, Hpiece | exact Hpieces].
Qed.

Lemma show_field_names_stripped (arg : string) :
  Forall (fun name => contains_char "," name = false /\ strip name = name)
    (show_field_names arg).
Proof.
  unfold show_field_names.
  apply Forall_fmap. eapply Forall_impl; [apply split_comma_no_comma |].
  intros piece Hpiece. simpl. split.
  - unfold strip. by apply rstrip_contains, lstrip_contains.
  - apply strip_idempotent.
Qed.

End ShowCommand.

Section ShowCommandTurn.
Import Console.

Variable FieldObj : Type.
Variable isinstance_StaggeredGrid : FieldObj -> bool.
Variable at_centers : FieldObj -> FieldObj.
Variable vec_squared : FieldObj -> FieldObj.
Variable heatmap : FieldObj -> Z -> Z -> list string.
Variable App : Type.
Variable app_step app_play app_pause : App -> App.
Variable registry : App -> list (string * FieldObj).
Variable str_fieldnames : App -> string.
Variable Config : Type.
Variable ordered_field_names : App -> Config -> list string.
Variable terminal_size : Z * Z.

(** X11.  A command [show <names>] calls [draw] with the pieces between
    the commas of what follows "show ", without the white space around
    them: there is at least one name, no name holds a comma, and stripping
    a name again changes nothing. *)
Theorem show_command_field_names (arg : string) (w : World App Config) :
  command_turn FieldObj isinstance_StaggeredGrid at_centers vec_squared heatmap App
    app_step app_play app_pause registry str_fieldnames Config ordered_field_names
    terminal_size ("show " +:+ arg) w
  = draw FieldObj isinstance_StaggeredGrid at_centers vec_squared heatmap App
      registry str_fieldnames Config ordered_field_names terminal_size
      (Some (show_field_names arg)) w
  /\ show_field_names arg <> []
  /\ Forall (fun name => contains_char "," name = false /\ strip name = name)
       (show_field_names arg).
Proof.
  split; [| split].
  - change ("show " +:+ arg)
      with (String "s" (String "h" (String "o" (String "w" (String " " arg))))).
    unfold command_turn. simpl.
    assert (String.prefix "" arg = true) as -> by (by destruct arg).
    reflexivity.
  - unfold show_field_names. intros Hnil. apply List.map_eq_nil in Hnil.
    by apply split_comma_nonempty in Hnil.
  - apply show_field_names_stripped.
Qed.

End ShowCommandTurn.

(** ** Instances, continued *)

Section MoreInstances.
Import Math Field Seeding Aux.

Lemma seeding_rejects_other_distribution_witness :
  _distribute_points Examples.quarter Examples.two_by_two 1 "Center" 0
  = (inl Py.AssertionError, 0%nat).
Proof.
  apply (seeding_rejects_other_distribution Examples.quarter Examples.two_by_two 1
           "Center" 0); discriminate.
Defined.

Lemma seeding_uniform_points_in_cells_witness :
  exists blocks : list points_t,
    batch_points Examples.quarter Examples.two_by_two 2 "uniform" 0 0
    = (inr (List.concat blocks), 8%nat)
    /\ length blocks = 2%nat
    /\ Forall (fun block =>
                 Forall2 in_closed_cell
                   (active_cells (rank := 2)
                      [[Examples.on; Examples.off]; [Examples.off; Examples.on]])
                   block) blocks.
Proof.
  apply (seeding_uniform_points_in_cells Examples.quarter Examples.two_by_two 2 0
           [[Examples.on; Examples.off]; [Examples.off; Examples.on]] 0).
  - intros n. unfold Examples.quarter. split; [discriminate | reflexivity].
  - lia.
  - reflexivity.
  - change (Forall (Forall (fun i => i < 2 ^ 23)%Z) [[0; 0]; [1; 1]]%Z).
    repeat (constructor; try lia).
Defined.

Lemma seeding_returns_iff_equal_counts_witness :
  exists r s',
    _distribute_points Examples.quarter Examples.two_by_two 2 "uniform" 0
    = (inr r, s').
Proof.
  destruct (seeding_returns_iff_equal_counts Examples.quarter Examples.two_by_two 2
              "uniform" 0) as [[_ Hreturns] _];
    [reflexivity | discriminate | lia | by right |].
  apply Hreturns. intros [|[|i]] [|[|j]] ti tj Hi Hj;
    try discriminate Hi; try discriminate Hj;
    injection Hi as <-; injection Hj as <-; reflexivity.
Defined.

Lemma mask_of_mask_witness :
  exists (h1 h2 : store) (r1 r2 : ref),
    call_mask Examples.one_object 0%nat = Some (h1, r1)
    /\ call_mask h1 r1 = Some (h2, r2)
    /\ r1 <> 0%nat /\ r2 <> 0%nat /\ r2 <> r1
    /\ h2 !! r1 = Some (mask (Examples.two_points true))
    /\ h2 !! r2 = Some (mask (Examples.two_points true))
    /\ h2 !! 0%nat = Some (Examples.two_points true).
Proof.
  apply (mask_of_mask Examples.one_object 0%nat (Examples.two_points true)).
  reflexivity.
Defined.

Lemma draw_plots_found_fields_witness :
  Console.draw nat (fun _ => false) id id (fun _ _ _ => ["#"]) unit
    Examples.two_fields Examples.two_fields_str unit (fun _ _ => ["density"])
    (80, 20)%Z (Some ["velocity"; "density"]) Examples.fresh_console
  = (inr tt,
     Console.written unit unit Examples.fresh_console
       [Console.join_lines
          (Console.plot_lines nat (fun _ => false) id id (fun _ _ _ => ["#"])
             (80, 20)%Z [2%nat; 1%nat]) +:+ Console.newline]).
Proof.
  destruct (draw_plots_found_fields nat (fun _ => false) id id (fun _ _ _ => ["#"])
              unit Examples.two_fields Examples.two_fields_str unit
              (fun _ _ => ["density"]) (80, 20)%Z ["velocity"; "density"]
              [2%nat; 1%nat] Examples.fresh_console) as [Hdraw _].
  - discriminate.
  - repeat constructor.
  - exact Hdraw.
Defined.

End MoreInstances.
